(** * knip 0.7.3: the issue finder ([findIssues]) and its aggregator

    A shallow embedding of [findIssues] (the second module of
    [src/src/cli.ts]): the issue store and its counters, the two insertion
    operations, the dependency passes, the duplicate export pass and the export
    usage classifier, followed by the properties of the specification that
    were checked against it.

    What the module imports and this development does not see is taken as
    an interface: the ts-morph helpers and [getType] ([SourceModel]), the
    closures of [getDependencyAnalyzer] ([DependencyAnalyzer]),
    [partitionSourceFiles] ([ProjectUtil]), and [path.relative], [getLine]
    and the floating point percentage ([Host]). *)

From Stdlib Require Import Ascii.
From stdpp Require Import gmap strings list fin_maps pretty.

Set Default Proof Using "Type".
Local Open Scope string_scope.

(** ** Results of code that may throw *)

Inductive Result (A : Type) : Type :=
| Ok (a : A)
| Throw (reason : string).
Arguments Ok {A} a.
Arguments Throw {A} reason.

Global Instance Result_ret : MRet Result := λ A a, Ok a.

Global Instance Result_bind : MBind Result := λ A B k m,
  match m with
  | Ok a => k a
  | Throw e => Throw e
  end.

Global Instance Result_fmap : FMap Result := λ A B f m,
  match m with
  | Ok a => Ok (f a)
  | Throw e => Throw e
  end.

(** [xs.forEach(f)] for a callback that updates the run state and may throw;
    a [return] inside the callback ends that call only. *)
Fixpoint forEach {A S} (xs : list A) (f : A → S → Result S) (st : S) : Result S :=
  match xs with
  | [] => Ok st
  | x :: rest => st' ← f x st; forEach rest f st'
  end.

(** ** Syntax nodes, as far as the classifier inspects them *)

Inductive SyntaxKind :=
| Identifier
| ArrowFunction
| FunctionDeclaration
| ClassDeclaration
| TypeAliasDeclaration
| InterfaceDeclaration
| EnumDeclaration
| PropertyAccessExpression
| VariableDeclaration
| OtherKind (code : nat).

Global Instance SyntaxKind_eq_dec : EqDecision SyntaxKind.
Proof. solve_decision. Defined.

(** One entry of [identifier.findReferences()]; only the file names of
    [compilerObject.references] are read. *)
Record ReferencedSymbol := { references : list string }.

(** A wrapped node. ts-morph hands out one wrapper per compiler node, and the
    [Set] of line 209 compares wrappers by reference: [nodeId] stands for
    that reference. [findReferences] is the answer of the language service
    for the node. *)
#[warnings="-register-all"] Inductive Node :=
  mkNode {
    nodeId : nat;
    getKind : SyntaxKind;
    getText : string;
    findReferences : list ReferencedSymbol;
    getChildren : list Node
  }.

Definition isKind (n : Node) (k : SyntaxKind) : bool := bool_decide (getKind n = k).

Definition getFirstChildByKind (n : Node) (k : SyntaxKind) : option Node :=
  List.find (λ c, isKind c k) (getChildren n).

Definition getLastChildByKind (n : Node) (k : SyntaxKind) : option Node :=
  List.find (λ c, isKind c k) (rev (getChildren n)).

Definition orThrow {A} (what : string) (o : option A) : Result A :=
  match o with
  | Some a => Ok a
  | None => Throw what
  end.

Definition getFirstChildByKindOrThrow (n : Node) (k : SyntaxKind) : Result Node :=
  orThrow "Expected to find a child of the given kind" (getFirstChildByKind n k).

Definition getLastChildByKindOrThrow (n : Node) (k : SyntaxKind) : Result Node :=
  orThrow "Expected to find a child of the given kind" (getLastChildByKind n k).

(** Depth first, in document order. *)
Fixpoint getFirstDescendantByKind (n : Node) (k : SyntaxKind) : option Node :=
  match n with
  | mkNode _ _ _ _ cs =>
      (fix scan (cs : list Node) : option Node :=
         match cs with
         | [] => None
         | c :: rest =>
             if isKind c k then Some c
             else match getFirstDescendantByKind c k with
                  | Some d => Some d
                  | None => scan rest
                  end
         end) cs
  end.

Record SourceFile := {
  getFilePath : string;
  (** a [ReadonlyMap] in insertion order: export name, merged declarations *)
  getExportedDeclarations : list (string * list Node)
}.

(** ** Issues, the issue store and the counters *)

Record Issue := {
  filePath : string;
  symbol : string;
  symbols : option (list string);
  symbolType : option string
}.

Global Instance Issue_eq_dec : EqDecision Issue.
Proof. solve_decision. Defined.

Definition Issue_of (filePath symbol : string) : Issue :=
  {| filePath := filePath; symbol := symbol; symbols := None; symbolType := None |}.

Inductive SymbolIssueType := Unresolved | Exports | Types | NsExports | NsTypes | Duplicates.
Inductive ProjectIssueType := Files | Dependencies | DevDependencies.

Global Instance SymbolIssueType_eq_dec : EqDecision SymbolIssueType.
Proof. solve_decision. Defined.
Global Instance ProjectIssueType_eq_dec : EqDecision ProjectIssueType.
Proof. solve_decision. Defined.

(** A symbol store is an object of objects; keys that collide with members of
    [Object.prototype] are outside this model: reading such a key finds the
    inherited member, and the assignment of line 154 to the symbol
    [__proto__] replaces the prototype of the object of the file instead of
    storing an entry. *)
Abbreviation SymbolStore := (gmap string (gmap string Issue)).

Record Issues := {
  files : gset string;
  dependencies : gset string;
  devDependencies : gset string;
  unresolved : SymbolStore;
  exports : SymbolStore;
  types : SymbolStore;
  nsExports : SymbolStore;
  nsTypes : SymbolStore;
  duplicates : SymbolStore
}.

Module Counters.
Record t := mk {
  files : nat;
  dependencies : nat;
  devDependencies : nat;
  unresolved : nat;
  exports : nat;
  types : nat;
  nsExports : nat;
  nsTypes : nat;
  duplicates : nat;
  processed : nat
}.
End Counters.

(** [issues[issueType]] for a symbol issue type, read and written. *)
Definition symbolStore (t : SymbolIssueType) (i : Issues) : SymbolStore :=
  match t with
  | Unresolved => unresolved i
  | Exports => exports i
  | Types => types i
  | NsExports => nsExports i
  | NsTypes => nsTypes i
  | Duplicates => duplicates i
  end.

Definition setSymbolStore (t : SymbolIssueType) (s : SymbolStore) (i : Issues) : Issues :=
  match t with
  | Unresolved => {| files := files i; dependencies := dependencies i; devDependencies := devDependencies i;
                     unresolved := s; exports := exports i; types := types i;
                     nsExports := nsExports i; nsTypes := nsTypes i; duplicates := duplicates i |}
  | Exports => {| files := files i; dependencies := dependencies i; devDependencies := devDependencies i;
                  unresolved := unresolved i; exports := s; types := types i;
                  nsExports := nsExports i; nsTypes := nsTypes i; duplicates := duplicates i |}
  | Types => {| files := files i; dependencies := dependencies i; devDependencies := devDependencies i;
                unresolved := unresolved i; exports := exports i; types := s;
                nsExports := nsExports i; nsTypes := nsTypes i; duplicates := duplicates i |}
  | NsExports => {| files := files i; dependencies := dependencies i; devDependencies := devDependencies i;
                    unresolved := unresolved i; exports := exports i; types := types i;
                    nsExports := s; nsTypes := nsTypes i; duplicates := duplicates i |}
  | NsTypes => {| files := files i; dependencies := dependencies i; devDependencies := devDependencies i;
                  unresolved := unresolved i; exports := exports i; types := types i;
                  nsExports := nsExports i; nsTypes := s; duplicates := duplicates i |}
  | Duplicates => {| files := files i; dependencies := dependencies i; devDependencies := devDependencies i;
                     unresolved := unresolved i; exports := exports i; types := types i;
                     nsExports := nsExports i; nsTypes := nsTypes i; duplicates := s |}
  end.

Definition projectStore (t : ProjectIssueType) (i : Issues) : gset string :=
  match t with
  | Files => files i
  | Dependencies => dependencies i
  | DevDependencies => devDependencies i
  end.

Definition setProjectStore (t : ProjectIssueType) (s : gset string) (i : Issues) : Issues :=
  match t with
  | Files => {| files := s; dependencies := dependencies i; devDependencies := devDependencies i;
                unresolved := unresolved i; exports := exports i; types := types i;
                nsExports := nsExports i; nsTypes := nsTypes i; duplicates := duplicates i |}
  | Dependencies => {| files := files i; dependencies := s; devDependencies := devDependencies i;
                       unresolved := unresolved i; exports := exports i; types := types i;
                       nsExports := nsExports i; nsTypes := nsTypes i; duplicates := duplicates i |}
  | DevDependencies => {| files := files i; dependencies := dependencies i; devDependencies := s;
                          unresolved := unresolved i; exports := exports i; types := types i;
                          nsExports := nsExports i; nsTypes := nsTypes i; duplicates := duplicates i |}
  end.

(** [counters[issueType]] and [counters[issueType]++]. *)
Definition symbolCounter (t : SymbolIssueType) (c : Counters.t) : nat :=
  match t with
  | Unresolved => Counters.unresolved c
  | Exports => Counters.exports c
  | Types => Counters.types c
  | NsExports => Counters.nsExports c
  | NsTypes => Counters.nsTypes c
  | Duplicates => Counters.duplicates c
  end.

Definition projectCounter (t : ProjectIssueType) (c : Counters.t) : nat :=
  match t with
  | Files => Counters.files c
  | Dependencies => Counters.dependencies c
  | DevDependencies => Counters.devDependencies c
  end.

Definition incrSymbolCounter (t : SymbolIssueType) (c : Counters.t) : Counters.t :=
  let 'Counters.mk fi de dv un ex ty nx nt du pr := c in
  match t with
  | Unresolved => Counters.mk fi de dv (S un) ex ty nx nt du pr
  | Exports => Counters.mk fi de dv un (S ex) ty nx nt du pr
  | Types => Counters.mk fi de dv un ex (S ty) nx nt du pr
  | NsExports => Counters.mk fi de dv un ex ty (S nx) nt du pr
  | NsTypes => Counters.mk fi de dv un ex ty nx (S nt) du pr
  | Duplicates => Counters.mk fi de dv un ex ty nx nt (S du) pr
  end.

Definition incrProjectCounter (t : ProjectIssueType) (c : Counters.t) : Counters.t :=
  let 'Counters.mk fi de dv un ex ty nx nt du pr := c in
  match t with
  | Files => Counters.mk (S fi) de dv un ex ty nx nt du pr
  | Dependencies => Counters.mk fi (S de) dv un ex ty nx nt du pr
  | DevDependencies => Counters.mk fi de (S dv) un ex ty nx nt du pr
  end.

Definition incrProcessed (c : Counters.t) : Counters.t :=
  let 'Counters.mk fi de dv un ex ty nx nt du pr := c in
  Counters.mk fi de dv un ex ty nx nt du (S pr).

(** The number of (file, symbol) entries of a symbol store. *)
Definition entries (s : SymbolStore) : nat :=
  map_fold (λ _ (perFile : gmap string Issue) n, size perFile + n) 0 s.

(** ** The collaborators of the module, as interfaces *)

(** [./util/project] *)
Class ProjectUtil := {
  partitionSourceFiles : list SourceFile → list SourceFile → list SourceFile * list SourceFile
}.

(** [./util/type], [ts.getJSDocPublicTag] (whether a tag is found) and the two
    ts-morph-helpers. *)
Class SourceModel := {
  getType : Node → option string;
  getJSDocPublicTag : Node → bool;
  findDuplicateExportedNames : SourceFile → list (list string);
  findReferencingNamespaceNodes : SourceFile → list Node
}.

(** The three closures [getDependencyAnalyzer(configuration)] returns, as the
    queries the specification describes. *)
Class DependencyAnalyzer := {
  getUnresolvedDependencies : SourceFile → list Issue;
  getUnusedDependencies : list string;
  getUnusedDevDependencies : list string
}.

Inductive LineValue := LNum (n : nat) | LStr (s : string).

(** [path.relative], [getLine] of [./log], and the text of
    [Math.floor((counter / total) * 100)], a floating point computation. *)
Class Host := {
  relative : string → string → string;
  getLine : LineValue → string → string;
  floorPercentage : nat → nat → string
}.

(** ** Configuration and run state *)

Module Report.
Record t := mk {
  files : bool;
  dependencies : bool;
  unlisted : bool;
  exports : bool;
  types : bool;
  nsExports : bool;
  nsTypes : bool;
  duplicates : bool
}.
End Report.

Record JsDocOptions := { isReadPublicTag : bool }.

Record Configuration := {
  workingDir : string;
  isShowProgress : bool;
  report : Report.t;
  isDev : bool;
  jsDocOptions : JsDocOptions;
  entryFiles : list SourceFile;
  productionFiles : list SourceFile;
  projectFiles : list SourceFile
}.

(** The calls the module level [lineRewriter] receives, oldest first. *)
Inductive LineRewriterCall :=
| update (messages : list string)
| resetLines.

Record RunState := {
  issues : Issues;
  counters : Counters.t;
  lineRewriter : list LineRewriterCall
}.

(** JavaScript truthiness of [string | undefined]. *)
Definition truthy (type : option string) : bool :=
  match type with
  | Some s => bool_decide (s ≠ "")
  | None => false
  end.

(** [store[file]?.[name]] is truthy: an issue object is stored there. *)
Definition recorded (store : SymbolStore) (file name : string) : bool :=
  match store !! file with
  | Some perFile => bool_decide (is_Some (perFile !! name))
  | None => false
  end.

(** ** [findIssues] *)

(** Lines 203 and 204: the issue of a group of duplicate export names. *)
Definition duplicateIssue (sourceFile : SourceFile) (symbols : list string) : Issue :=
  let symbol := String.concat "|" symbols in
  {| filePath := getFilePath sourceFile; symbol := symbol; symbols := Some symbols; symbolType := None |}.

Section findIssues.
Context `{!ProjectUtil, !SourceModel, !DependencyAnalyzer, !Host}.
Context (configuration : Configuration).

Local Abbreviation R := (report configuration).

(** Slice and dice used and unreferenced files (lines 95 and 96). *)
Definition usedProductionFiles : list SourceFile :=
  (partitionSourceFiles (projectFiles configuration) (productionFiles configuration)).1.
Definition unreferencedProductionFiles : list SourceFile :=
  (partitionSourceFiles (projectFiles configuration) (productionFiles configuration)).2.
Definition usedEntryFiles : list SourceFile :=
  (partitionSourceFiles usedProductionFiles (entryFiles configuration)).1.
Definition usedNonEntryFiles : list SourceFile :=
  (partitionSourceFiles usedProductionFiles (entryFiles configuration)).2.

Definition initialIssues : Issues :=
  {| files := list_to_set (getFilePath <$> unreferencedProductionFiles);
     dependencies := ∅;
     devDependencies := ∅;
     unresolved := ∅;
     exports := ∅;
     types := ∅;
     nsExports := ∅;
     nsTypes := ∅;
     duplicates := ∅ |}.

Definition initialCounters : Counters.t :=
  {| Counters.files := size (files initialIssues);
     Counters.dependencies := size (dependencies initialIssues);
     Counters.devDependencies := size (dependencies initialIssues);
     Counters.unresolved := 0;
     Counters.exports := 0;
     Counters.types := 0;
     Counters.nsExports := 0;
     Counters.nsTypes := 0;
     Counters.duplicates := 0;
     Counters.processed := size (files initialIssues) |}.

Definition initialState : RunState :=
  {| issues := initialIssues; counters := initialCounters; lineRewriter := [] |}.

Definition when (b : bool) (line : string) : list string := if b then [line] else [].

Definition updateProcessingOutput (item : Issue) (st : RunState) : RunState :=
  if negb (isShowProgress configuration) then st
  else
    let counter := Counters.processed (counters st) in
    let total := length (projectFiles configuration) in
    let messages :=
      ([getLine (LStr (floorPercentage counter total +:+ "%"))
          ("of files processed (" +:+ pretty counter +:+ " of " +:+ pretty total +:+ ")")]
       ++ when (Report.files R) (getLine (LNum (length unreferencedProductionFiles)) "unused files")
       ++ when (Report.unlisted R) (getLine (LNum (Counters.unresolved (counters st))) "unlisted dependencies")
       ++ when (Report.exports R) (getLine (LNum (Counters.exports (counters st))) "unused exports")
       ++ when (Report.nsExports R) (getLine (LNum (Counters.nsExports (counters st))) "unused exports in namespace")
       ++ when (Report.types R) (getLine (LNum (Counters.types (counters st))) "unused types")
       ++ when (Report.nsTypes R) (getLine (LNum (Counters.nsTypes (counters st))) "unused types in namespace")
       ++ when (Report.duplicates R) (getLine (LNum (Counters.duplicates (counters st))) "duplicate exports")
       ++ (if Nat.ltb counter total
           then [""; "Processing: " +:+ relative (workingDir configuration) (filePath item)]
           else []))%list in
    {| issues := issues st;
       counters := counters st;
       lineRewriter := (lineRewriter st ++ [update messages])%list |}.

Definition addSymbolIssue (issueType : SymbolIssueType) (issue : Issue) (st : RunState) : RunState :=
  let key := relative (workingDir configuration) (filePath issue) in
  let store := symbolStore issueType (issues st) in
  let perFile := default ∅ (store !! key) in
  updateProcessingOutput issue
    {| issues := setSymbolStore issueType (<[key := <[symbol issue := issue]> perFile]> store) (issues st);
       counters := incrSymbolCounter issueType (counters st);
       lineRewriter := lineRewriter st |}.

Definition addProjectIssue (issueType : ProjectIssueType) (issue : Issue) (st : RunState) : RunState :=
  updateProcessingOutput issue
    (if bool_decide (symbol issue ∈ projectStore issueType (issues st)) then st
     else
       {| issues := setProjectStore issueType ({[symbol issue]} ∪ projectStore issueType (issues st)) (issues st);
          counters := incrProjectCounter issueType (counters st);
          lineRewriter := lineRewriter st |}).

Definition countProcessed (st : RunState) : RunState :=
  {| issues := issues st; counters := incrProcessed (counters st); lineRewriter := lineRewriter st |}.

(** [unresolvedDependencies.forEach(issue => addSymbolIssue('unresolved', issue))] *)
Definition addUnresolved (sourceFile : SourceFile) (st : RunState) : RunState :=
  foldl (λ st issue, addSymbolIssue Unresolved issue st) st (getUnresolvedDependencies sourceFile).

(** The callback of [usedEntryFiles.forEach] (lines 170 to 174). *)
Definition visitEntryFile (sourceFile : SourceFile) (st : RunState) : RunState :=
  addUnresolved sourceFile (countProcessed st).

(** Lines 200 to 206. *)
Definition addDuplicates (sourceFile : SourceFile) (st : RunState) : RunState :=
  foldl (λ st symbols, addSymbolIssue Duplicates (duplicateIssue sourceFile symbols) st)
        st (findDuplicateExportedNames sourceFile).

(** Lines 223 to 241: the identifier a declaration is bound to, if any. *)
Definition identifierOf (declaration : Node) : Result (option Node) :=
  if isKind declaration Identifier then Ok (Some declaration)
  else if isKind declaration ArrowFunction then Ok None
  else if isKind declaration FunctionDeclaration
          || isKind declaration ClassDeclaration
          || isKind declaration TypeAliasDeclaration
          || isKind declaration InterfaceDeclaration
          || isKind declaration EnumDeclaration
  then identifier ← getFirstChildByKindOrThrow declaration Identifier; Ok (Some identifier)
  else if isKind declaration PropertyAccessExpression
  then identifier ← getLastChildByKindOrThrow declaration Identifier; Ok (Some identifier)
  else Ok (getFirstDescendantByKind declaration Identifier).

(** Lines 246 to 249. *)
Definition alreadyReported (st : RunState) (filePath identifierText : string) : bool :=
  Report.exports R && recorded (exports (issues st)) filePath identifierText
  || Report.types R && recorded (types (issues st)) filePath identifierText
  || Report.nsExports R && recorded (nsExports (issues st)) filePath identifierText
  || Report.nsTypes R && recorded (nsTypes (issues st)) filePath identifierText.

(** Line 256 and 258. *)
Definition refFiles (refs : list ReferencedSymbol) : list string :=
  remove_dups (concat (references <$> refs)).

Definition isReferencedOnlyBySelf (refs : list ReferencedSymbol) (filePath : string) : bool :=
  bool_decide (length (refFiles refs) = 1) && bool_decide (head (refFiles refs) = Some filePath).

(** Lines 251 to 275, once an identifier is at hand. *)
Definition classify (sourceFile : SourceFile) (type : option string) (identifier : Node)
    (st : RunState) : RunState :=
  let filePath := getFilePath sourceFile in
  let identifierText := getText identifier in
  let refs := findReferences identifier in
  if bool_decide (length refs = 0) then
    addSymbolIssue Exports (Issue_of filePath identifierText) st
  else if negb (isReferencedOnlyBySelf refs filePath) then st
  else if bool_decide (0 < length (findReferencingNamespaceNodes sourceFile))%nat then
    if truthy type then
      addSymbolIssue NsTypes
        {| filePath := filePath; symbol := identifierText; symbols := None; symbolType := type |} st
    else addSymbolIssue NsExports (Issue_of filePath identifierText) st
  else if truthy type then
    addSymbolIssue Types
      {| filePath := filePath; symbol := identifierText; symbols := None; symbolType := type |} st
  else addSymbolIssue Exports (Issue_of filePath identifierText) st.

(** Lines 216 to 219: the declaration is of no reported kind. *)
Definition isNotReported (type : option string) : bool :=
  negb (Report.nsExports R) && negb (Report.nsTypes R)
  && (negb (Report.types R) && truthy type || negb (Report.exports R) && negb (truthy type)).

(** Line 221. *)
Definition isPublic (declaration : Node) : bool :=
  isReadPublicTag (jsDocOptions configuration) && getJSDocPublicTag declaration.

(** The callback of [declarations.forEach] (lines 213 to 277). *)
Definition visitDeclaration (sourceFile : SourceFile) (declaration : Node)
    (st : RunState) : Result RunState :=
  let filePath := getFilePath sourceFile in
  let type := getType declaration in
  if isNotReported type then Ok st
  else if isPublic declaration then Ok st
  else
    identifier ← identifierOf declaration;
    match identifier with
    | None => Ok st
    | Some identifier =>
        if alreadyReported st filePath (getText identifier) then Ok st
        else Ok (classify sourceFile type identifier st)
    end.

(** Line 209: the distinct declarations over all export names. *)
Definition uniqueExportedSymbols (sourceFile : SourceFile) : list nat :=
  remove_dups (nodeId <$> concat (snd <$> getExportedDeclarations sourceFile)).

(** Lines 208 to 279. *)
Definition classifyExports (sourceFile : SourceFile) (st : RunState) : Result RunState :=
  if bool_decide (length (uniqueExportedSymbols sourceFile) = 1) then Ok st
  else
    forEach (getExportedDeclarations sourceFile)
      (λ entry, forEach (snd entry) (visitDeclaration sourceFile)) st.

(** The callback of [usedNonEntryFiles.forEach] (lines 188 to 280). *)
Definition visitSourceFile (sourceFile : SourceFile) (st : RunState) : Result RunState :=
  let st := countProcessed st in
  let st := if Report.dependencies R || Report.unlisted R then addUnresolved sourceFile st else st in
  let st := if Report.duplicates R then addDuplicates sourceFile st else st in
  if Report.exports R || Report.types R || Report.nsExports R || Report.nsTypes R
  then classifyExports sourceFile st
  else Ok st.

(** Lines 167 to 175. *)
Definition entryPass (st : RunState) : RunState :=
  if Report.dependencies R || Report.unlisted R
  then foldl (λ st sourceFile, visitEntryFile sourceFile st) st usedEntryFiles
  else st.

(** Lines 178 to 281. *)
Definition mainPass (st : RunState) : Result RunState :=
  if Report.dependencies R || Report.unlisted R || Report.exports R || Report.types R
     || Report.nsExports R || Report.nsTypes R || Report.duplicates R
  then forEach usedNonEntryFiles visitSourceFile st
  else Ok st.

(** Lines 283 to 290. *)
Definition projectPass (st : RunState) : RunState :=
  if Report.dependencies R then
    let st := foldl (λ st symbol, addProjectIssue Dependencies (Issue_of "" symbol) st)
                    st getUnusedDependencies in
    if isDev configuration
    then foldl (λ st symbol, addProjectIssue DevDependencies (Issue_of "" symbol) st)
               st getUnusedDevDependencies
    else st
  else st.

Definition finish (st : RunState) : RunState :=
  if isShowProgress configuration
  then {| issues := issues st; counters := counters st;
          lineRewriter := (lineRewriter st ++ [resetLines])%list |}
  else st.

(** The run, with the state it leaves behind. *)
Definition run : Result RunState :=
  st ← mainPass (entryPass initialState);
  Ok (finish (projectPass st)).

Definition findIssues : Result (Issues * Counters.t) :=
  st ← run; Ok (issues st, counters st).

End findIssues.

(** ** The file partitioner *)

Definition hasFilePath (files : list SourceFile) (file : SourceFile) : bool :=
  bool_decide (getFilePath file ∈ getFilePath <$> files).

(** Modelled from the spec: [partitionSourceFiles] of [./util/project] is
    not part of the sources at hand. Section 4.1 gives its contract,
    [partition(superset, candidateSubset) -> (inSuperset, notInSuperset)]:
    the elements of the subset that are members of the superset, and those
    that are not, each in input order. A file is known by its unique path
    (section 3). *)
Fixpoint partition (superset candidateSubset : list SourceFile)
    : list SourceFile * list SourceFile :=
  match candidateSubset with
  | [] => ([], [])
  | file :: rest =>
      let '(inSuperset, notInSuperset) := partition superset rest in
      if hasFilePath superset file
      then (file :: inSuperset, notInSuperset)
      else (inSuperset, file :: notInSuperset)
  end.

Definition specProjectUtil : ProjectUtil := {| partitionSourceFiles := partition |}.

(** ** A POSIX host, for running the model on examples *)

Fixpoint splitPath (p : string) : list string :=
  match p with
  | EmptyString => [EmptyString]
  | String c rest =>
      if Ascii.eqb c "/"%char then EmptyString :: splitPath rest
      else match splitPath rest with
           | seg :: segs => String c seg :: segs
           | [] => [String c EmptyString]
           end
  end.

Definition segmentsOf (p : string) : list string :=
  List.filter (λ seg, negb (String.eqb seg "")) (splitPath p).

Fixpoint dropCommon (from to : list string) : list string * list string :=
  match from, to with
  | a :: from', b :: to' => if String.eqb a b then dropCommon from' to' else (from, to)
  | _, _ => (from, to)
  end.

(** [path.relative] on normalised absolute POSIX paths. *)
Definition posixRelative (from to : string) : string :=
  let '(up, down) := dropCommon (segmentsOf from) (segmentsOf to) in
  String.concat "/" (((λ _, "..") <$> up) ++ down)%list.

Definition posixHost : Host :=
  {| relative := posixRelative;
     getLine := λ value text,
       match value with LNum n => pretty n | LStr s => s end +:+ " " +:+ text;
     (* whole percentages, which the floating point result equals when the
        quotient is exact *)
     floorPercentage := λ counter total,
       if bool_decide (total = 0) then (if bool_decide (counter = 0) then "NaN" else "Infinity")
       else pretty (counter * 100 / total)%nat |}.

(** A host whose [path.relative] hands back the target path, as
    [path.win32.relative] does for paths on different drives. *)
Definition targetHost : Host :=
  {| relative := λ _ to, to;
     getLine := getLine (Host := posixHost);
     floorPercentage := floorPercentage (Host := posixHost) |}.

(** ** A small project, for running the model on examples *)

Definition identifier (id : nat) (name : string) (referencedFrom : list string) : Node :=
  mkNode id Identifier name [{| references := referencedFrom |}] [].

Definition unreferencedIdentifier (id : nat) (name : string) : Node :=
  mkNode id Identifier name [] [].

Definition declaration (id : nat) (kind : SyntaxKind) (name : Node) : Node :=
  mkNode id kind "" [] [name].

(** [index.ts] imports the unlisted module [foo] twice. *)
Definition indexFile : SourceFile :=
  {| getFilePath := "/proj/index.ts"; getExportedDeclarations := [] |}.

(** [a.ts]: [export type T = ...], which nothing references, and
    [export const used], imported by [b.ts]. *)
Definition typeT : Node :=
  declaration 1 TypeAliasDeclaration (unreferencedIdentifier 2 "T").
Definition constUsed : Node :=
  declaration 3 VariableDeclaration (identifier 4 "used" ["/proj/a.ts"; "/proj/b.ts"]).
Definition fileA : SourceFile :=
  {| getFilePath := "/proj/a.ts";
     getExportedDeclarations := [("T", [typeT]); ("used", [constUsed])] |}.

(** [c.ts]: [const x = 1; export { x, x as y }] and [export const used]. *)
Definition constX : Node :=
  declaration 5 VariableDeclaration (identifier 6 "x" ["/proj/c.ts"]).
Definition fileC : SourceFile :=
  {| getFilePath := "/proj/c.ts";
     getExportedDeclarations := [("x", [constX]); ("y", [constX]); ("used", [constUsed])] |}.

(** [m.ts]: [export interface Foo] merged with [export const Foo], the only
    export name; both are referenced in [m.ts] alone. *)
Definition interfaceFoo : Node :=
  declaration 7 InterfaceDeclaration (identifier 8 "Foo" ["/proj/m.ts"]).
Definition constFoo : Node :=
  declaration 9 VariableDeclaration (identifier 10 "Foo" ["/proj/m.ts"]).
Definition fileM : SourceFile :=
  {| getFilePath := "/proj/m.ts";
     getExportedDeclarations := [("Foo", [interfaceFoo; constFoo])] |}.

(** [d.ts]: [export { y, y as x }], reported as the group [y], [x]. *)
Definition constY : Node :=
  declaration 11 VariableDeclaration (identifier 12 "y" ["/proj/d.ts"; "/proj/b.ts"]).
Definition fileD : SourceFile :=
  {| getFilePath := "/proj/d.ts";
     getExportedDeclarations := [("y", [constY]); ("x", [constY])] |}.

(** [n.ts]: imported elsewhere as [import * as n]; [export interface I] and
    [export const v] are referenced in [n.ts] alone. *)
Definition interfaceI : Node :=
  declaration 13 InterfaceDeclaration (identifier 14 "I" ["/proj/n.ts"]).
Definition constV : Node :=
  declaration 15 VariableDeclaration (identifier 16 "v" ["/proj/n.ts"]).
Definition fileN : SourceFile :=
  {| getFilePath := "/proj/n.ts";
     getExportedDeclarations := [("I", [interfaceI]); ("v", [constV])] |}.

(** [f.ts]: [export default () => {}] next to [export const used]. *)
Definition arrow : Node := mkNode 17 ArrowFunction "() => {}" [] [].
Definition fileF : SourceFile :=
  {| getFilePath := "/proj/f.ts";
     getExportedDeclarations := [("default", [arrow]); ("used", [constUsed])] |}.

Definition demoSourceModel : SourceModel :=
  {| getType := λ declaration,
       match getKind declaration with
       | TypeAliasDeclaration => Some "type"
       | InterfaceDeclaration => Some "interface"
       | EnumDeclaration => Some "enum"
       | _ => None
       end;
     getJSDocPublicTag := λ _, false;
     findDuplicateExportedNames := λ sourceFile,
       if String.eqb (getFilePath sourceFile) "/proj/d.ts" then [["y"; "x"]] else [];
     findReferencingNamespaceNodes := λ sourceFile,
       if String.eqb (getFilePath sourceFile) "/proj/n.ts"
       then [mkNode 100 (OtherKind 0) "n" [] []] else [] |}.

Definition demoAnalyzer : DependencyAnalyzer :=
  {| getUnresolvedDependencies := λ sourceFile,
       if String.eqb (getFilePath sourceFile) "/proj/index.ts"
       then [Issue_of "/proj/index.ts" "foo"; Issue_of "/proj/index.ts" "foo"]
       else [];
     getUnusedDependencies := ["lodash"];
     getUnusedDevDependencies := [] |}.

Definition reportAll : Report.t := Report.mk true true true true true true true true.

(** Only unused types are asked for. *)
Definition reportTypes : Report.t := Report.mk false false false false true false false false.

Definition demoConfiguration (progress : bool) (report : Report.t)
    (entry production project : list SourceFile) : Configuration :=
  {| workingDir := "/proj";
     isShowProgress := progress;
     report := report;
     isDev := false;
     jsDocOptions := {| isReadPublicTag := false |};
     entryFiles := entry;
     productionFiles := production;
     projectFiles := project |}.

(** Every file of the project is reachable from [index.ts]. *)
Definition demoProject : list SourceFile :=
  [indexFile; fileA; fileC; fileM; fileD; fileN; fileF].

Definition demo (report : Report.t) : Configuration :=
  demoConfiguration false report [indexFile] demoProject demoProject.

(** ** The command line entry point ([cli.ts] of the current revision) *)

Module Cli.

(** What [parseArgs] hands back; an option that was not given is [None],
    and the defaults of lines 11 to 29 are applied where a value is read. *)
Module Values.
Record t := mk {
  help : option bool;
  dir : option string;
  config : option string;
  tsConfig : option string;
  include : option (list string);
  exclude : option (list string);
  ignore : option (list string);
  no_gitignore : option bool;
  dev : option bool;
  no_progress : option bool;
  reporter : option string;
  reporter_options : option string;
  max_issues : option string;
  jsdoc : option (list string);
  debug : option bool;
  debug_level : option string
}.
End Values.

(** A JavaScript number: not a number, an infinity, or a finite double,
    which is a fraction. *)
Inductive JsNumber :=
| NaN
| Infinity (negative : bool)
| Finite (numerator : Z) (denominator : positive).

(** [count > limit] for a count, as JavaScript compares numbers. *)
Definition exceeds (count : nat) (limit : JsNumber) : bool :=
  match limit with
  | NaN => false
  | Infinity negative => negative
  | Finite numerator denominator =>
      bool_decide (numerator < Z.of_nat count * Z.pos denominator)%Z
  end.

Inductive JsError :=
| ConfigurationError (message : string)
| OtherError (description : string).

Module Debug.
Record t := mk { isEnabled : bool; level : JsNumber }.
End Debug.

(** The argument of [main] (lines 67 to 83). *)
Module MainOptions.
Record t := mk {
  cwd : string;
  workingDir : string;
  configFilePath : string;
  tsConfigFilePath : option string;
  include : list string;
  exclude : list string;
  ignore : list string;
  gitignore : bool;
  isDev : bool;
  isShowProgress : bool;
  jsDoc : list string;
  debug : Debug.t
}.
End MainOptions.

(** What [main] resolves to; [report] is an object of flags, with its keys
    in their order. *)
Module MainResult.
Record t := mk {
  report : list (string * bool);
  issues : Issues;
  counters : Counters.t
}.
End MainResult.

(** The argument of the reporter (line 85). *)
Module ReportArgs.
Record t := mk {
  report : list (string * bool);
  issues : Issues;
  cwd : string;
  workingDir : string;
  isDev : bool;
  options : string
}.
End ReportArgs.

(** A reporter of [./reporters], or a module loaded with [require]. *)
Inductive Reporter :=
| builtin (name : string)
| required (path : string).

(** The process, [node:path], [Number], and the modules [.], [./reporters]
    and the required reporter: [main] resolves or rejects, loading or
    running a reporter may throw. Names that [./reporters] inherits from
    [Object.prototype] are outside this model. *)
Class Process := {
  cwd : string;
  resolve : string → string;
  join : string → string → string;
  stdoutIsTTY : bool;
  stdoutHasCursorTo : bool;
  Number : string → JsNumber;
  reporters : list string;
  require : string → option JsError;
  main : MainOptions.t → JsError + MainResult.t;
  reporterThrows : Reporter → ReportArgs.t → option JsError
}.

Inductive Effect :=
| printHelp
| consoleError (text : string)
| printReport (reporter : Reporter) (args : ReportArgs.t).

(** How the process ends: [exited] carries the exit status the host
    reports. *)
Inductive Ending :=
| completed
| exited (status : nat)
| thrown (error : JsError).

Record Outcome := { effects : list Effect; ending : Ending }.

(** [process.exit(code)]: the process ends at once, and a POSIX host reports
    the low eight bits of the code as the exit status. *)
Definition processExit (code : nat) : Ending := exited (code mod 256).

Definition newline : string := String (ascii_of_nat 10) EmptyString.

(** [report[key]], as a condition. *)
Definition flag (report : list (string * bool)) (key : string) : bool :=
  match List.find (λ entry, String.eqb entry.1 key) report with
  | Some entry => entry.2
  | None => false
  end.

(** Line 87. *)
Definition reportGroup (report : list (string * bool)) : option string :=
  if flag report "files" then Some "files"
  else List.find (λ key, flag report key) (fst <$> report).

(** Line 88. *)
Definition counterGroup (report : list (string * bool)) : option string :=
  (λ group, if String.eqb group "unlisted" then "unresolved" else group) <$> reportGroup report.

(** [counters[counterGroup]] *)
Definition counterOf (c : Counters.t) (group : string) : option nat :=
  if String.eqb group "files" then Some (Counters.files c)
  else if String.eqb group "dependencies" then Some (Counters.dependencies c)
  else if String.eqb group "devDependencies" then Some (Counters.devDependencies c)
  else if String.eqb group "unresolved" then Some (Counters.unresolved c)
  else if String.eqb group "exports" then Some (Counters.exports c)
  else if String.eqb group "types" then Some (Counters.types c)
  else if String.eqb group "nsExports" then Some (Counters.nsExports c)
  else if String.eqb group "nsTypes" then Some (Counters.nsTypes c)
  else if String.eqb group "duplicates" then Some (Counters.duplicates c)
  else if String.eqb group "processed" then Some (Counters.processed c)
  else None.

Section cli.
Context `{!Process}.
Context (values : Values.t).

(** Line 57. *)
Definition workingDir : string :=
  match Values.dir values with
  | Some dir => if bool_decide (dir ≠ "") then resolve dir else cwd
  | None => cwd
  end.

(** Lines 59 and 60, as a condition. *)
Definition isShowProgress : bool :=
  let noProgress := default false (Values.no_progress values) in
  if bool_decide (noProgress = false) then stdoutIsTTY && stdoutHasCursorTo
  else negb noProgress.

(** Lines 62 and 63. *)
Definition loadReporter : JsError + Reporter :=
  let reporter := default "symbols" (Values.reporter values) in
  if bool_decide (reporter ∈ reporters) then inr (builtin reporter)
  else match require (join workingDir reporter) with
       | Some error => inl error
       | None => inr (required (join workingDir reporter))
       end.

Definition mainOptions : MainOptions.t :=
  let isDebug := default false (Values.debug values) in
  {| MainOptions.cwd := cwd;
     MainOptions.workingDir := workingDir;
     MainOptions.configFilePath := default "knip.json" (Values.config values);
     MainOptions.tsConfigFilePath := Values.tsConfig values;
     MainOptions.include := default [] (Values.include values);
     MainOptions.exclude := default [] (Values.exclude values);
     MainOptions.ignore := default [] (Values.ignore values);
     MainOptions.gitignore := negb (default false (Values.no_gitignore values));
     MainOptions.isDev := default false (Values.dev values);
     MainOptions.isShowProgress := isShowProgress;
     MainOptions.jsDoc := default [] (Values.jsdoc values);
     MainOptions.debug :=
       {| Debug.isEnabled := isDebug;
          Debug.level := if isDebug then Number (default "1" (Values.debug_level values))
                         else Finite 0 1 |} |}.

(** Lines 93 to 100. *)
Definition caught (effects : list Effect) (error : JsError) : Outcome :=
  match error with
  | ConfigurationError message =>
      {| effects := (effects ++ [consoleError (message +:+ newline); printHelp])%list;
         ending := processExit 1 |}
  | _ => {| effects := effects; ending := thrown error |}
  end.

(** Lines 87 to 92. *)
Definition exitOnIssues (result : MainResult.t) : Ending :=
  match counterGroup (MainResult.report result) with
  | Some group =>
      if bool_decide (group ≠ "") then
        match counterOf (MainResult.counters result) group with
        | Some count =>
            if exceeds count (Number (default "0" (Values.max_issues values)))
            then processExit count else completed
        | None => completed
        end
      else completed
  | None => completed
  end.

(** Line 85: the argument of the reporter. *)
Definition reportArgs (result : MainResult.t) : ReportArgs.t :=
  {| ReportArgs.report := MainResult.report result;
     ReportArgs.issues := MainResult.issues result;
     ReportArgs.cwd := cwd;
     ReportArgs.workingDir := workingDir;
     ReportArgs.isDev := default false (Values.dev values);
     ReportArgs.options := default "" (Values.reporter_options values) |}.

(** Lines 65 to 102. *)
Definition run (reporter : Reporter) : Outcome :=
  match main mainOptions with
  | inl error => caught [] error
  | inr result =>
      match reporterThrows reporter (reportArgs result) with
      | Some error => caught [printReport reporter (reportArgs result)] error
      | None =>
          {| effects := [printReport reporter (reportArgs result)];
             ending := exitOnIssues result |}
      end
  end.

(** The module, from top to bottom. *)
Definition cli : Outcome :=
  if bool_decide (Values.help values = Some true)
  then {| effects := [printHelp]; ending := processExit 0 |}
  else match loadReporter with
       | inl error => {| effects := []; ending := thrown error |}
       | inr reporter => run reporter
       end.

End cli.

End Cli.

(** A partitioner for the examples that splits its first argument by the
    paths of the second, which is what the names at lines 95 and 96 ask for. *)
Definition splitFirst : ProjectUtil :=
  {| partitionSourceFiles := λ sourceFiles others,
       (List.filter (hasFilePath others) sourceFiles,
        List.filter (λ sourceFile, negb (hasFilePath others sourceFile)) sourceFiles) |}.

(** [u.ts]: [export default function () {}] next to [export const used]. *)
Definition anonymousFunction : Node := mkNode 18 FunctionDeclaration "function () {}" [] [].
Definition fileU : SourceFile :=
  {| getFilePath := "/proj/u.ts";
     getExportedDeclarations := [("default", [anonymousFunction]); ("used", [constUsed])] |}.

(** An analyzer that finds two unlisted modules in [index.ts], once each. *)
Definition tidyAnalyzer : DependencyAnalyzer :=
  {| getUnresolvedDependencies := λ sourceFile,
       if String.eqb (getFilePath sourceFile) "/proj/index.ts"
       then [Issue_of "/proj/index.ts" "foo"; Issue_of "/proj/index.ts" "bar"]
       else [];
     getUnusedDependencies := ["lodash"; "lodash"];
     getUnusedDevDependencies := ["tsx"] |}.

(** Only unused files are asked for. *)
Definition reportFiles : Report.t := Report.mk true false false false false false false false.

(** The project with [u.ts] in it. *)
Definition withUnnamed (report : Report.t) : Configuration :=
  demoConfiguration false report [indexFile] [indexFile; fileA; fileU] [indexFile; fileA; fileU].

(** [index.ts] and [a.ts] alone. *)
Definition twoFiles (report : Report.t) : Configuration :=
  demoConfiguration false report [indexFile] [indexFile; fileA] [indexFile; fileA].

(** A process for the examples: output is piped, [Number] knows the
    decimal numerals the examples use, [main] is the run of the small
    project with unlisted dependencies as the first group, and rejects a
    configuration file named [missing.json]. *)
Definition demoProcess : Cli.Process :=
  {| Cli.cwd := "/proj";
     Cli.resolve := λ dir, dir;
     Cli.join := λ directory name, directory +:+ "/" +:+ name;
     Cli.stdoutIsTTY := false;
     Cli.stdoutHasCursorTo := false;
     Cli.Number := λ text,
       if String.eqb text "0" then Cli.Finite 0 1
       else if String.eqb text "1" then Cli.Finite 1 1
       else if String.eqb text "5" then Cli.Finite 5 1
       else Cli.NaN;
     Cli.reporters := ["symbols"; "json"];
     Cli.require := λ path, Some (Cli.OtherError ("Cannot find module " +:+ path));
     Cli.main := λ options,
       if String.eqb (Cli.MainOptions.configFilePath options) "missing.json"
       then inl (Cli.ConfigurationError "Unable to find missing.json")
       else
         match findIssues (H := specProjectUtil) (H0 := demoSourceModel)
                 (H1 := demoAnalyzer) (H2 := posixHost) (demo reportAll) with
         | Ok (issues, counters) =>
             inr {| Cli.MainResult.report := [("files", false); ("unlisted", true); ("exports", true)];
                    Cli.MainResult.issues := issues;
                    Cli.MainResult.counters := counters |}
         | Throw reason => inl (Cli.OtherError reason)
         end;
     Cli.reporterThrows := λ _ _, None |}.

(** [s.ts]: [export const foo], which nothing refers to, [export const bar],
    imported by [b.ts], and [export type Options], whose references are in
    [s.ts]. *)
Definition constFooUnused : Node :=
  declaration 19 VariableDeclaration (unreferencedIdentifier 20 "foo").
Definition constBar : Node :=
  declaration 21 VariableDeclaration (identifier 22 "bar" ["/proj/s.ts"; "/proj/b.ts"]).
Definition typeOptions : Node :=
  declaration 23 TypeAliasDeclaration (identifier 24 "Options" ["/proj/s.ts"]).
Definition fileS : SourceFile :=
  {| getFilePath := "/proj/s.ts";
     getExportedDeclarations :=
       [("foo", [constFooUnused]); ("bar", [constBar]); ("Options", [typeOptions])] |}.

(** [t.ts]: [const a = 1; export { a, a as b, a as c }] next to
    [export const used]. *)
Definition constA : Node :=
  declaration 25 VariableDeclaration (identifier 26 "a" ["/proj/t.ts"; "/proj/b.ts"]).
Definition fileT : SourceFile :=
  {| getFilePath := "/proj/t.ts";
     getExportedDeclarations :=
       [("a", [constA]); ("b", [constA]); ("c", [constA]); ("used", [constUsed])] |}.

(** A source model whose duplicate detector answers the group of [t.ts]
    once for each further name of the declaration. *)
Definition repeatingSourceModel : SourceModel :=
  {| getType := getType (SourceModel := demoSourceModel);
     getJSDocPublicTag := getJSDocPublicTag (SourceModel := demoSourceModel);
     findDuplicateExportedNames := λ sourceFile,
       if String.eqb (getFilePath sourceFile) "/proj/t.ts"
       then [["a"; "b"; "c"]; ["a"; "b"; "c"]]
       else findDuplicateExportedNames (SourceModel := demoSourceModel) sourceFile;
     findReferencingNamespaceNodes :=
       findReferencingNamespaceNodes (SourceModel := demoSourceModel) |}.

(** An analyzer that finds unlisted modules in the entry file and in
    [a.ts]. *)
Definition spreadAnalyzer : DependencyAnalyzer :=
  {| getUnresolvedDependencies := λ sourceFile,
       if String.eqb (getFilePath sourceFile) "/proj/index.ts"
       then [Issue_of "/proj/index.ts" "foo"]
       else if String.eqb (getFilePath sourceFile) "/proj/a.ts"
       then [Issue_of "/proj/a.ts" "bar"; Issue_of "/proj/a.ts" "foo"]
       else [];
     getUnusedDependencies := [];
     getUnusedDevDependencies := [] |}.

(** A result of [main] with unused files as the group of the exit code. *)
Definition filesResult (unusedFiles : nat) : Cli.MainResult.t :=
  {| Cli.MainResult.report := [("files", true); ("exports", true)];
     Cli.MainResult.issues :=
       {| files := ∅; dependencies := ∅; devDependencies := ∅; unresolved := ∅; exports := ∅;
          types := ∅; nsExports := ∅; nsTypes := ∅; duplicates := ∅ |};
     Cli.MainResult.counters := Counters.mk unusedFiles 0 0 0 7 0 0 0 0 unusedFiles |}.

Definition noValues : Cli.Values.t :=
  Cli.Values.mk None None None None None None None None None None None None None None None None.

Definition withConfig (config : string) : Cli.Values.t :=
  Cli.Values.mk None None (Some config) None None None None None None None None None None None
    None None.

Definition withMaxIssues (limit : string) : Cli.Values.t :=
  Cli.Values.mk None None None None None None None None None None None None (Some limit) None
    None None.

(** ** Notions of the specification *)

(** The issue the store holds for a file key and a symbol. *)
Definition issueAt (store : SymbolStore) (key name : string) : option Issue :=
  store !! key ≫= (.!! name).

(** [st'] differs from [st] in the symbol issue types of [ts] at most (and
    in the progress output, the processed counter and the dependency sets). *)
Definition touchesOnly (ts : list SymbolIssueType) (st st' : RunState) : Prop :=
  files (issues st') = files (issues st)
  ∧ ∀ t, t ∉ ts →
      symbolStore t (issues st') = symbolStore t (issues st)
      ∧ symbolCounter t (counters st') = symbolCounter t (counters st).

Definition exportCategories : list SymbolIssueType := [Exports; Types; NsExports; NsTypes].

(** The same run with progress display switched on or off. *)
Definition withProgress (progress : bool) (configuration : Configuration) : Configuration :=
  {| workingDir := workingDir configuration;
     isShowProgress := progress;
     report := report configuration;
     isDev := isDev configuration;
     jsDocOptions := jsDocOptions configuration;
     entryFiles := entryFiles configuration;
     productionFiles := productionFiles configuration;
     projectFiles := projectFiles configuration |}.

(** A state without its progress output. *)
Definition silent (st : RunState) : RunState :=
  {| issues := issues st; counters := counters st; lineRewriter := [] |}.

(** The export names of a file. *)
Definition exportedNames (sourceFile : SourceFile) : list string :=
  remove_dups (fst <$> getExportedDeclarations sourceFile).

(** Every reference to the identifier lies in [file], and there is one. *)
Definition referencedOnlyWithin (file : string) (identifier : Node) : Prop :=
  concat (references <$> findReferences identifier) ≠ []
  ∧ ∀ referencing, referencing ∈ concat (references <$> findReferences identifier) → referencing = file.

(** The issue type of a declaration referenced in its own file only, by
    whether the file is a target of namespace access and whether the
    declaration is a type. *)
Definition selfReferenceCategory (namespaceTarget isType : bool) : SymbolIssueType :=
  if namespaceTarget then (if isType then NsTypes else NsExports)
  else (if isType then Types else Exports).

(** The issue of an unused export: the type is kept for types. *)
Definition exportIssue (sourceFile : SourceFile) (type : option string) (identifier : Node) : Issue :=
  {| filePath := getFilePath sourceFile;
     symbol := getText identifier;
     symbols := None;
     symbolType := if truthy type then type else None |}.

(** Names in ascending order of their characters. *)
Fixpoint insertName (name : string) (sorted : list string) : list string :=
  match sorted with
  | [] => [name]
  | other :: rest =>
      if String.leb name other then name :: sorted else other :: insertName name rest
  end.

Definition sortNames (names : list string) : list string := foldr insertName [] names.

(** Unresolved dependencies collected in a single pass over a list of
    files: each issue is put into the store under its file key and symbol. *)
Definition recordIssue `{!Host} (workingDir : string) (store : SymbolStore) (issue : Issue)
    : SymbolStore :=
  let key := relative workingDir (filePath issue) in
  <[key := <[symbol issue := issue]> (default ∅ (store !! key))]> store.

Definition singlePassUnresolved `{!DependencyAnalyzer, !Host} (workingDir : string)
    (reachable : list SourceFile) : SymbolStore :=
  foldl (recordIssue workingDir) ∅ (reachable ≫= getUnresolvedDependencies).

(** Issues that go under the same file key and symbol are the same issue. *)
Definition agreeOnKeys `{!Host} (workingDir : string) (found : list Issue) : Prop :=
  ∀ a b, a ∈ found → b ∈ found →
    relative workingDir (filePath a) = relative workingDir (filePath b) →
    symbol a = symbol b → a = b.

(** The file key and the symbol an issue is stored under. *)
Definition storedUnder `{!Host} (workingDir : string) (issue : Issue) : string * string :=
  (relative workingDir (filePath issue), symbol issue).

(** [st'] holds what [st] holds: no recorded issue and no dependency is
    gone, and no counter has gone down. *)
Definition grows (st st' : RunState) : Prop :=
  (∀ t key name,
     is_Some (issueAt (symbolStore t (issues st)) key name) →
     is_Some (issueAt (symbolStore t (issues st')) key name))
  ∧ (∀ p, projectStore p (issues st) ⊆ projectStore p (issues st'))
  ∧ (∀ t, (symbolCounter t (counters st) ≤ symbolCounter t (counters st'))%nat)
  ∧ (∀ p, (projectCounter p (counters st) ≤ projectCounter p (counters st'))%nat)
  ∧ (Counters.processed (counters st) ≤ Counters.processed (counters st'))%nat.

(** The declarations a file exports, over all export names. *)
Definition exportedDeclarations (sourceFile : SourceFile) : list Node :=
  concat (snd <$> getExportedDeclarations sourceFile).

(** The symbol issue types the passes of a run write to, by what is
    reported. *)
Definition activeTypes (report : Report.t) : list SymbolIssueType :=
  ((if Report.dependencies report || Report.unlisted report then [Unresolved] else [])
   ++ (if Report.duplicates report then [Duplicates] else [])
   ++ (if Report.exports report || Report.types report
          || Report.nsExports report || Report.nsTypes report
       then exportCategories else []))%list.

(** The issue stored under [key] and [name] for the issue type [t] stands
    for [declaration], exported by [sourceFile] and bound to [identifier]:
    nothing outside the file refers to the identifier, [types] and
    [nsTypes] hold types, [nsExports] holds no type, and the two namespace
    types are used for targets of namespace access only. *)
Definition reportsDeclaration `{!SourceModel, !Host} (configuration : Configuration)
    (t : SymbolIssueType) (key name : string) (issue : Issue)
    (sourceFile : SourceFile) (declaration identifier : Node) : Prop :=
  declaration ∈ exportedDeclarations sourceFile
  ∧ identifierOf declaration = Ok (Some identifier)
  ∧ isPublic configuration declaration = false
  ∧ key = relative (workingDir configuration) (getFilePath sourceFile)
  ∧ name = getText identifier
  ∧ filePath issue = getFilePath sourceFile
  ∧ symbol issue = getText identifier
  ∧ (∀ referencing,
       referencing ∈ concat (references <$> findReferences identifier) →
       referencing = getFilePath sourceFile)
  ∧ (t = Types ∨ t = NsTypes →
       truthy (getType declaration) = true ∧ symbolType issue = getType declaration)
  ∧ (t = NsExports → truthy (getType declaration) = false)
  ∧ (t = NsExports ∨ t = NsTypes → findReferencingNamespaceNodes sourceFile ≠ []).

(** A declaration of a kind that takes its name from a child, without an
    [Identifier] among its children: an anonymous
    [export default function () {}], for one. *)
Definition lacksIdentifier (declaration : Node) : Prop :=
  getKind declaration ∈ [FunctionDeclaration; ClassDeclaration; TypeAliasDeclaration;
                         InterfaceDeclaration; EnumDeclaration; PropertyAccessExpression]
  ∧ ∀ child, child ∈ getChildren declaration → getKind child ≠ Identifier.

(** The issue types of types. *)
Definition typedCategory (t : SymbolIssueType) : bool :=
  match t with
  | Types | NsTypes => true
  | _ => false
  end.

(** The declaration does not reach the classifier when its file is visited:
    no export issue type is reported, the file exports one declaration only,
    the declaration is of no reported kind, or it carries an honoured
    public tag. *)
Definition keptOut `{!SourceModel} (configuration : Configuration) (sourceFile : SourceFile)
    (declaration : Node) : bool :=
  negb (Report.exports (report configuration) || Report.types (report configuration)
        || Report.nsExports (report configuration) || Report.nsTypes (report configuration))
  || bool_decide (length (uniqueExportedSymbols sourceFile) = 1)
  || isNotReported configuration (getType declaration)
  || isPublic configuration declaration.

(** The export issue stored for a name of a file; it has a type exactly
    under the issue types of types. *)
Definition exportIssueFor (t : SymbolIssueType) (sourceFile : SourceFile) (name : string)
    (issue : Issue) : Prop :=
  filePath issue = getFilePath sourceFile
  ∧ symbol issue = name
  ∧ symbols issue = None
  ∧ if typedCategory t then truthy (symbolType issue) = true else symbolType issue = None.

(** The language service lists the declaration of a type among the
    references to its name: no type exported by the file is without
    references. *)
Definition typesHaveReferences `{!SourceModel} (sourceFile : SourceFile) : Prop :=
  ∀ declaration identifier,
    declaration ∈ exportedDeclarations sourceFile →
    identifierOf declaration = Ok (Some identifier) →
    truthy (getType declaration) = true →
    findReferences identifier ≠ [].

(** Groups with the same joined key are the same group. *)
Definition keysTellGroupsApart (groups : list (list string)) : Prop :=
  ∀ group group',
    group ∈ groups → group' ∈ groups →
    String.concat "|" group = String.concat "|" group' → group = group'.

(** The names an object literal inherits from [Object.prototype]. *)
Definition inheritedNames : list string :=
  ["__proto__"; "constructor"; "hasOwnProperty"; "isPrototypeOf"; "propertyIsEnumerable";
   "toLocaleString"; "toString"; "valueOf"; "__defineGetter__"; "__defineSetter__";
   "__lookupGetter__"; "__lookupSetter__"].

(** The issue goes into the store as an entry of its own: its file key is
    no inherited name, and its symbol is not [__proto__], for which line 154
    replaces the prototype of the object of the file. *)
Definition storedAsEntry `{!Host} (workingDir : string) (issue : Issue) : Prop :=
  (relative workingDir (filePath issue) ∉ inheritedNames) ∧ symbol issue ≠ "__proto__".

(** The number of symbol issues submitted, over the six issue types. *)
Definition submitted (c : Counters.t) : nat :=
  Counters.unresolved c + Counters.exports c + Counters.types c
  + Counters.nsExports c + Counters.nsTypes c + Counters.duplicates c.

Definition isUpdate (call : LineRewriterCall) : Prop :=
  match call with
  | update _ => True
  | resetLines => False
  end.

(** ** Stores and counters, one issue type at a time *)

Lemma symbolStore_set t t' s i :
  symbolStore t' (setSymbolStore t s i) = if decide (t = t') then s else symbolStore t' i.
Proof. by destruct t, t'. Qed.

Lemma files_setSymbolStore t s i : files (setSymbolStore t s i) = files i.
Proof. by destruct t. Qed.

Lemma projectStore_setSymbolStore p t s i :
  projectStore p (setSymbolStore t s i) = projectStore p i.
Proof. by destruct p, t. Qed.

Lemma symbolStore_setProjectStore t p s i :
  symbolStore t (setProjectStore p s i) = symbolStore t i.
Proof. by destruct p, t. Qed.

Lemma projectStore_set p p' s i :
  projectStore p' (setProjectStore p s i) = if decide (p = p') then s else projectStore p' i.
Proof. by destruct p, p'. Qed.

Lemma symbolCounter_incr t t' c :
  symbolCounter t' (incrSymbolCounter t c)
  = if decide (t = t') then S (symbolCounter t' c) else symbolCounter t' c.
Proof. by destruct c, t, t'. Qed.

Lemma symbolCounter_incrProject t p c :
  symbolCounter t (incrProjectCounter p c) = symbolCounter t c.
Proof. by destruct c, t, p. Qed.

Lemma projectCounter_incr p p' c :
  projectCounter p' (incrProjectCounter p c)
  = if decide (p = p') then S (projectCounter p' c) else projectCounter p' c.
Proof. by destruct c, p, p'. Qed.

Lemma symbolCounter_incrProcessed t c :
  symbolCounter t (incrProcessed c) = symbolCounter t c.
Proof. by destruct c, t. Qed.

(** ** [touchesOnly] is a preorder, monotone in the list of types *)

Lemma touchesOnly_refl ts st : touchesOnly ts st st.
Proof. by split. Qed.

Lemma touchesOnly_trans ts st1 st2 st3 :
  touchesOnly ts st1 st2 → touchesOnly ts st2 st3 → touchesOnly ts st1 st3.
Proof.
  intros [Hf12 H12] [Hf23 H23]. split; [congruence|].
  intros t Ht. destruct (H12 t Ht) as [<- <-]. by apply H23.
Qed.

Lemma touchesOnly_mono ts ts' st st' :
  ts ⊆ ts' → touchesOnly ts st st' → touchesOnly ts' st st'.
Proof.
  intros Hsub [Hf H]. split; [done|].
  intros t Ht. apply H. intros Hin. by apply Ht, Hsub.
Qed.

Lemma touchesOnly_foldl {A} ts (f : RunState → A → RunState) (xs : list A) st :
  (∀ st x, touchesOnly ts st (f st x)) → touchesOnly ts st (foldl f st xs).
Proof.
  intros Hf. revert st. induction xs as [|x xs IH]; intros st; simpl.
  - apply touchesOnly_refl.
  - eapply touchesOnly_trans; [apply Hf | apply IH].
Qed.

Lemma touchesOnly_forEach {A} ts (f : A → RunState → Result RunState) (xs : list A) st st' :
  (∀ x st st', f x st = Ok st' → touchesOnly ts st st') →
  forEach xs f st = Ok st' → touchesOnly ts st st'.
Proof.
  intros Hf. revert st. induction xs as [|x xs IH]; intros st; simpl.
  - intros [= <-]. apply touchesOnly_refl.
  - destruct (f x st) as [st1|] eqn:Hx; [|done]. simpl. intros Hrest.
    eapply touchesOnly_trans; [by eapply Hf | by apply IH].
Qed.

(** ** The aggregator and the passes, one operation at a time *)

Section operations.
Context `{!ProjectUtil, !SourceModel, !DependencyAnalyzer, !Host}.
Context (configuration : Configuration).

Local Abbreviation keyOf issue := (relative (workingDir configuration) (filePath issue)).

Lemma issues_updateProcessingOutput item st :
  issues (updateProcessingOutput configuration item st) = issues st.
Proof. unfold updateProcessingOutput. by destruct (negb _). Qed.

Lemma counters_updateProcessingOutput item st :
  counters (updateProcessingOutput configuration item st) = counters st.
Proof. unfold updateProcessingOutput. by destruct (negb _). Qed.

Lemma issues_addSymbolIssue t issue st :
  issues (addSymbolIssue configuration t issue st)
  = setSymbolStore t
      (<[keyOf issue := <[symbol issue := issue]> (default ∅ (symbolStore t (issues st) !! keyOf issue))]>
         (symbolStore t (issues st)))
      (issues st).
Proof. unfold addSymbolIssue. by rewrite issues_updateProcessingOutput. Qed.

Lemma counters_addSymbolIssue t issue st :
  counters (addSymbolIssue configuration t issue st) = incrSymbolCounter t (counters st).
Proof. unfold addSymbolIssue. by rewrite counters_updateProcessingOutput. Qed.

Lemma issueAt_addSymbolIssue t issue st key name :
  issueAt (symbolStore t (issues (addSymbolIssue configuration t issue st))) key name
  = if decide (keyOf issue = key ∧ symbol issue = name) then Some issue
    else issueAt (symbolStore t (issues st)) key name.
Proof.
  rewrite issues_addSymbolIssue, symbolStore_set, decide_True by done.
  unfold issueAt. destruct (decide (keyOf issue = key)) as [<-|Hkey].
  - rewrite lookup_insert_eq. simpl.
    destruct (decide (symbol issue = name)) as [<-|Hname].
    + rewrite lookup_insert_eq. by rewrite decide_True.
    + rewrite lookup_insert_ne by done. rewrite decide_False by (intros [? ?]; congruence).
      by destruct (symbolStore t (issues st) !! keyOf issue).
  - rewrite lookup_insert_ne by done. by rewrite decide_False by (intros [? ?]; congruence).
Qed.

Lemma touchesOnly_addSymbolIssue t issue st :
  touchesOnly [t] st (addSymbolIssue configuration t issue st).
Proof.
  split.
  - by rewrite issues_addSymbolIssue, files_setSymbolStore.
  - intros t' Ht'. assert (t ≠ t') by (intros ->; apply Ht'; by apply list_elem_of_singleton).
    rewrite issues_addSymbolIssue, counters_addSymbolIssue.
    by rewrite symbolStore_set, symbolCounter_incr, !decide_False.
Qed.

Lemma touchesOnly_addProjectIssue p issue st :
  p ≠ Files → touchesOnly [] st (addProjectIssue configuration p issue st).
Proof.
  intros Hp. unfold addProjectIssue. split.
  - rewrite issues_updateProcessingOutput. case_bool_decide; [done|].
    simpl. by destruct p.
  - intros t _. rewrite issues_updateProcessingOutput, counters_updateProcessingOutput.
    case_bool_decide; [done|]. simpl.
    by rewrite symbolStore_setProjectStore, symbolCounter_incrProject.
Qed.

Lemma touchesOnly_countProcessed st : touchesOnly [] st (countProcessed st).
Proof. split; [done|]. intros t _. simpl. by rewrite symbolCounter_incrProcessed. Qed.

Lemma touchesOnly_addUnresolved sourceFile st :
  touchesOnly [Unresolved] st (addUnresolved configuration sourceFile st).
Proof. apply touchesOnly_foldl. intros. apply touchesOnly_addSymbolIssue. Qed.

Lemma touchesOnly_addDuplicates sourceFile st :
  touchesOnly [Duplicates] st (addDuplicates configuration sourceFile st).
Proof. apply touchesOnly_foldl. intros. apply touchesOnly_addSymbolIssue. Qed.

Lemma touchesOnly_classify sourceFile type identifier st :
  touchesOnly exportCategories st (classify configuration sourceFile type identifier st).
Proof.
  unfold classify.
  repeat case_match; try apply touchesOnly_refl;
    (eapply touchesOnly_mono; [|apply touchesOnly_addSymbolIssue]);
    intros t; rewrite list_elem_of_singleton; intros ->;
    unfold exportCategories; rewrite !elem_of_cons; tauto.
Qed.

Lemma touchesOnly_visitDeclaration sourceFile declaration st st' :
  visitDeclaration configuration sourceFile declaration st = Ok st' →
  touchesOnly exportCategories st st'.
Proof.
  unfold visitDeclaration.
  destruct (isNotReported _ _); [intros [= <-]; apply touchesOnly_refl|].
  destruct (isPublic _ _); [intros [= <-]; apply touchesOnly_refl|].
  destruct (identifierOf declaration) as [[identifier|]|]; simpl; [| |done].
  - destruct (alreadyReported _ _ _ _); intros [= <-];
      [apply touchesOnly_refl | apply touchesOnly_classify].
  - intros [= <-]. apply touchesOnly_refl.
Qed.

Lemma touchesOnly_classifyExports sourceFile st st' :
  classifyExports configuration sourceFile st = Ok st' →
  touchesOnly exportCategories st st'.
Proof.
  unfold classifyExports. case_bool_decide; [intros [= <-]; apply touchesOnly_refl|].
  apply touchesOnly_forEach. intros entry st1 st2.
  apply touchesOnly_forEach. intros declaration. apply touchesOnly_visitDeclaration.
Qed.

Lemma touchesOnly_projectPass st : touchesOnly [] st (projectPass configuration st).
Proof.
  unfold projectPass. destruct (Report.dependencies _); [|apply touchesOnly_refl].
  assert (∀ p xs st, p ≠ Files →
    touchesOnly [] st
      (foldl (λ st symbol, addProjectIssue configuration p (Issue_of "" symbol) st) st xs)) as Hfold.
  { intros p xs st1 Hp. apply touchesOnly_foldl. intros. by apply touchesOnly_addProjectIssue. }
  destruct (isDev _); [|by apply Hfold].
  eapply touchesOnly_trans; by apply Hfold.
Qed.

Lemma touchesOnly_finish st : touchesOnly [] st (finish configuration st).
Proof. unfold finish. destruct (isShowProgress _); by split. Qed.

End operations.

(** ** The export usage classifier *)

Lemma remove_dups_constant (file : string) (l : list string) :
  l ≠ [] → (∀ x, x ∈ l → x = file) → remove_dups l = [file].
Proof.
  induction l as [|x l IH]; [done|]. intros _ Hall.
  assert (x = file) as -> by (apply Hall; left).
  simpl. destruct l as [|y l].
  - case_decide as Hin; [by apply not_elem_of_nil in Hin|done].
  - assert (y = file) as -> by (apply Hall; right; left).
    case_decide as Hin; [|by destruct Hin; left].
    apply IH; [done|]. intros z Hz. apply Hall. by right.
Qed.

Lemma referencedOnlyWithin_self file identifier :
  referencedOnlyWithin file identifier →
  findReferences identifier ≠ [] ∧ isReferencedOnlyBySelf (findReferences identifier) file = true.
Proof.
  intros [Hsome Hall]. split.
  - intros Hnil. by rewrite Hnil in Hsome.
  - unfold isReferencedOnlyBySelf, refFiles.
    rewrite (remove_dups_constant file _ Hsome Hall).
    by rewrite !bool_decide_eq_true_2.
Qed.

Section classifier.
Context `{!ProjectUtil, !SourceModel, !Host}.
Context (configuration : Configuration).

Lemma identifierOf_arrow declaration :
  getKind declaration = ArrowFunction → identifierOf declaration = Ok None.
Proof. intros Hkind. unfold identifierOf, isKind. by rewrite Hkind. Qed.

(** Without references the issue goes to [exports], whatever [type] is. *)
Lemma classify_unreferenced sourceFile type identifier st :
  findReferences identifier = [] →
  classify configuration sourceFile type identifier st
  = addSymbolIssue configuration Exports
      (Issue_of (getFilePath sourceFile) (getText identifier)) st.
Proof. intros Hrefs. unfold classify. by rewrite Hrefs. Qed.

Lemma classify_self_reference sourceFile type identifier st :
  referencedOnlyWithin (getFilePath sourceFile) identifier →
  classify configuration sourceFile type identifier st
  = addSymbolIssue configuration
      (selfReferenceCategory
         (bool_decide (0 < length (findReferencingNamespaceNodes sourceFile))) (truthy type))
      (exportIssue sourceFile type identifier) st.
Proof.
  intros [Hrefs Hself]%referencedOnlyWithin_self. unfold classify.
  rewrite Hself. simpl.
  rewrite bool_decide_eq_false_2 by by destruct (findReferences identifier).
  unfold selfReferenceCategory, exportIssue, Issue_of.
  by destruct (bool_decide (0 < _)), (truthy type).
Qed.

(** C10: an exported declaration that is an arrow function has no
    identifier the classifier could look up, and visiting it leaves the run
    state as it was: no issue of any export category is recorded for it,
    whatever the report settings, the state and the references are. *)
Theorem arrow_function_is_skipped sourceFile declaration st :
  getKind declaration = ArrowFunction →
  identifierOf declaration = Ok None
  ∧ visitDeclaration configuration sourceFile declaration st = Ok st.
Proof.
  intros Hkind. pose proof (identifierOf_arrow _ Hkind) as Hid.
  split; [done|]. unfold visitDeclaration.
  destruct (isNotReported _ _); [done|].
  destruct (isPublic _ _); [done|].
  by rewrite Hid.
Qed.

End classifier.

(** ** One file of the main traversal *)

Section sourceFile.
Context `{!ProjectUtil, !SourceModel, !DependencyAnalyzer, !Host}.
Context (configuration : Configuration).

Local Abbreviation R := (report configuration).
Local Abbreviation keyOfFile sourceFile :=
  (relative (workingDir configuration) (getFilePath sourceFile)).

(** The steps of [visitSourceFile], in their order. *)
Lemma visitSourceFile_steps sourceFile st st' :
  visitSourceFile configuration sourceFile st = Ok st' →
  ∃ st1 st2,
    st1 = (if Report.dependencies R || Report.unlisted R
           then addUnresolved configuration sourceFile (countProcessed st)
           else countProcessed st)
    ∧ st2 = (if Report.duplicates R then addDuplicates configuration sourceFile st1 else st1)
    ∧ touchesOnly exportCategories st2 st'.
Proof.
  unfold visitSourceFile. intros Hvisit. eexists _, _. split_and!; [done..|].
  destruct (_ || _ || _ || _).
  - by apply touchesOnly_classifyExports in Hvisit.
  - injection Hvisit as <-. apply touchesOnly_refl.
Qed.

Lemma touchesOnly_dependency_step sourceFile st :
  touchesOnly [Unresolved] st
    (if Report.dependencies R || Report.unlisted R
     then addUnresolved configuration sourceFile (countProcessed st)
     else countProcessed st).
Proof.
  assert (touchesOnly [Unresolved] st (countProcessed st)) as Hcount.
  { eapply touchesOnly_mono; [|apply touchesOnly_countProcessed]. by intros t Ht%not_elem_of_nil. }
  destruct (_ || _); [|done].
  eapply touchesOnly_trans; [done|apply touchesOnly_addUnresolved].
Qed.

Lemma touchesOnly_visitSourceFile sourceFile st st' :
  visitSourceFile configuration sourceFile st = Ok st' →
  touchesOnly [Unresolved; Exports; Types; NsExports; NsTypes; Duplicates] st st'.
Proof.
  intros (st1 & st2 & -> & -> & Hclassify)%visitSourceFile_steps.
  eapply touchesOnly_trans; [|eapply touchesOnly_trans]; last first.
  - eapply touchesOnly_mono; [|done].
    intros t. unfold exportCategories. rewrite !elem_of_cons. tauto.
  - destruct (Report.duplicates R); [|apply touchesOnly_refl].
    eapply touchesOnly_mono; [|apply touchesOnly_addDuplicates].
    intros t. rewrite !elem_of_cons. tauto.
  - eapply touchesOnly_mono; [|apply touchesOnly_dependency_step].
    intros t. rewrite !elem_of_cons. tauto.
Qed.

(** C4, as the code has it: a file whose export names are bound to one
    declaration only, however many names that is, is not classified. The
    visit of the file succeeds and leaves [exports], [types], [nsExports]
    and [nsTypes], stores and counters, as they were, whatever the
    references to the declaration are. *)
Theorem single_declaration_file_is_not_classified sourceFile st :
  length (uniqueExportedSymbols sourceFile) = 1 →
  ∃ st',
    visitSourceFile configuration sourceFile st = Ok st'
    ∧ ∀ t, t ∈ exportCategories →
        symbolStore t (issues st') = symbolStore t (issues st)
        ∧ symbolCounter t (counters st') = symbolCounter t (counters st).
Proof.
  intros Hone.
  set (st1 := if Report.dependencies R || Report.unlisted R
              then addUnresolved configuration sourceFile (countProcessed st)
              else countProcessed st).
  set (st2 := if Report.duplicates R then addDuplicates configuration sourceFile st1 else st1).
  exists st2. split.
  - unfold visitSourceFile, classifyExports. fold st1. fold st2.
    rewrite bool_decide_eq_true_2 by done. by destruct (_ || _ || _ || _).
  - assert (touchesOnly [Unresolved; Duplicates] st st2) as [_ Hkept].
    { eapply touchesOnly_trans.
      - eapply touchesOnly_mono; [|apply touchesOnly_dependency_step].
        intros t. rewrite !elem_of_cons. tauto.
      - fold st1. unfold st2. destruct (Report.duplicates R); [|apply touchesOnly_refl].
        eapply touchesOnly_mono; [|apply touchesOnly_addDuplicates].
        intros t. rewrite !elem_of_cons. tauto. }
    intros t Ht. apply Hkept. unfold exportCategories in Ht.
    rewrite !elem_of_cons in Ht. rewrite !not_elem_of_cons.
    destruct Ht as [->|[->|[->|[->|[]%not_elem_of_nil]]]];
      split_and!; try done; apply not_elem_of_nil.
Qed.

(** The duplicate export pass over a list of groups. *)
Local Abbreviation addGroups sourceFile :=
  (foldl (λ st symbols,
            addSymbolIssue configuration Duplicates (duplicateIssue sourceFile symbols) st)).

Lemma addGroups_other sourceFile groups st key name :
  ¬ (key = keyOfFile sourceFile ∧ name ∈ String.concat "|" <$> groups) →
  issueAt (duplicates (issues (addGroups sourceFile st groups))) key name
  = issueAt (duplicates (issues st)) key name.
Proof.
  revert st. induction groups as [|group groups IH]; intros st Hother; [done|].
  simpl. rewrite IH.
  - rewrite (issueAt_addSymbolIssue configuration Duplicates). simpl.
    rewrite decide_False; [done|]. intros [<- <-]. apply Hother. split; [done|]. left.
  - intros [-> Hin]. apply Hother. split; [done|]. by right.
Qed.

Lemma addGroups_member sourceFile groups st group :
  group ∈ groups →
  ∃ last,
    last ∈ groups
    ∧ String.concat "|" last = String.concat "|" group
    ∧ issueAt (duplicates (issues (addGroups sourceFile st groups)))
        (keyOfFile sourceFile) (String.concat "|" group)
      = Some (duplicateIssue sourceFile last).
Proof.
  revert st group. induction groups as [|first groups IH]; intros st group Hin.
  - by apply not_elem_of_nil in Hin.
  - simpl.
    destruct (decide (String.concat "|" group ∈ String.concat "|" <$> groups)) as [Hlater|Hlast].
    + apply list_elem_of_fmap in Hlater as (other & Hkey & Hother).
      destruct (IH (addSymbolIssue configuration Duplicates (duplicateIssue sourceFile first) st)
                  other Hother) as (last & Hlast & Hsame & Hat).
      exists last. split; [by right|]. split; [congruence|]. by rewrite Hkey.
    + apply elem_of_cons in Hin as [->|Hin];
        [|destruct Hlast; by apply list_elem_of_fmap_2].
      exists first. split; [left|]. split; [done|].
      rewrite addGroups_other by (by intros [_ ?]).
      rewrite (issueAt_addSymbolIssue configuration Duplicates). simpl.
      by rewrite decide_True.
Qed.


End sourceFile.

(** ** The whole run *)

Lemma issueAt_recordIssue `{!Host} workingDir store issue key name :
  issueAt (recordIssue workingDir store issue) key name
  = if decide (relative workingDir (filePath issue) = key ∧ symbol issue = name)
    then Some issue else issueAt store key name.
Proof.
  unfold issueAt, recordIssue.
  destruct (decide (relative workingDir (filePath issue) = key)) as [<-|Hkey].
  - rewrite lookup_insert_eq. simpl.
    destruct (decide (symbol issue = name)) as [<-|Hname].
    + rewrite lookup_insert_eq. by rewrite decide_True.
    + rewrite lookup_insert_ne by done. rewrite decide_False by (intros [? ?]; congruence).
      by destruct (store !! relative workingDir (filePath issue)).
  - rewrite lookup_insert_ne by done. by rewrite decide_False by (intros [? ?]; congruence).
Qed.

(** What a store holds after a list of issues went into it. *)
Lemma is_Some_issueAt_foldl `{!Host} workingDir (found : list Issue) store key name :
  is_Some (issueAt (foldl (recordIssue workingDir) store found) key name)
  ↔ is_Some (issueAt store key name)
    ∨ ∃ issue, issue ∈ found ∧ relative workingDir (filePath issue) = key ∧ symbol issue = name.
Proof.
  revert store. induction found as [|issue found IH]; intros store; simpl.
  - split; [by left|]. intros [?|(? & []%not_elem_of_nil & _)]. done.
  - rewrite IH, issueAt_recordIssue. case_decide as Hhere.
    + split; [|by eauto]. intros _. right. exists issue. split; [left|done].
    + split.
      * intros [?|(other & Hin & ?)]; [by left|]. right. exists other. split; [by right|done].
      * intros [?|(other & [->|Hin]%elem_of_cons & ?)]; [by left|done|].
        right. by exists other.
Qed.

(** An issue a store holds was there before or is one of the list. *)
Lemma issueAt_foldl_recordIssue `{!Host} workingDir (found : list Issue) store key name issue :
  issueAt (foldl (recordIssue workingDir) store found) key name = Some issue →
  issueAt store key name = Some issue
  ∨ (issue ∈ found ∧ key = relative workingDir (filePath issue) ∧ name = symbol issue).
Proof.
  revert store. induction found as [|first found IH]; intros store; simpl; [by left|].
  intros [Hbefore|(Hin & Hkey & Hname)]%IH.
  - rewrite issueAt_recordIssue in Hbefore. case_decide as Hhere; [|by left].
    injection Hbefore as <-. destruct Hhere as [<- <-]. right. split; [left|done].
  - right. split; [by right|done].
Qed.

Lemma recordIssue_comm `{!Host} workingDir store a b :
  (relative workingDir (filePath a) = relative workingDir (filePath b) →
   symbol a = symbol b → a = b) →
  recordIssue workingDir (recordIssue workingDir store a) b
  = recordIssue workingDir (recordIssue workingDir store b) a.
Proof.
  intros Hagree. unfold recordIssue.
  destruct (decide (relative workingDir (filePath a) = relative workingDir (filePath b)))
    as [Hkey|Hkey].
  - rewrite <-Hkey, !lookup_insert_eq, !insert_insert_eq. simpl. f_equal.
    destruct (decide (symbol a = symbol b)) as [Hsymbol|Hsymbol].
    + by rewrite (Hagree Hkey Hsymbol).
    + by apply insert_insert_ne.
  - rewrite !lookup_insert_ne by done. by apply insert_insert_ne.
Qed.

(** Without conflicting issues the order of insertion does not matter. *)
Lemma foldl_recordIssue_Permutation `{!Host} workingDir (found found' : list Issue) :
  found ≡ₚ found' →
  agreeOnKeys workingDir found →
  ∀ store, foldl (recordIssue workingDir) store found = foldl (recordIssue workingDir) store found'.
Proof.
  induction 1 as [|issue l l' Hperm IH|a b l|l1 l2 l3 H12 IH12 H23 IH23];
    intros Hagree store; simpl.
  - done.
  - apply IH. intros a b Ha Hb. apply Hagree; by right.
  - f_equal. apply recordIssue_comm. intros Hkey Hsymbol.
    apply Hagree; [left|right; left|done..].
  - rewrite IH12 by done. apply IH23.
    intros a b Ha Hb. apply Hagree; by rewrite H12.
Qed.

Section wholeRun.
Context `{!ProjectUtil, !SourceModel, !DependencyAnalyzer, !Host}.
Context (configuration : Configuration).

Local Abbreviation R := (report configuration).
Local Abbreviation record := (recordIssue (workingDir configuration)).

Lemma touchesOnly_entryPass st :
  touchesOnly [Unresolved] st (entryPass configuration st).
Proof.
  unfold entryPass. destruct (_ || _); [|apply touchesOnly_refl].
  apply touchesOnly_foldl. intros st1 sourceFile. unfold visitEntryFile.
  eapply touchesOnly_trans; [|apply touchesOnly_addUnresolved].
  eapply touchesOnly_mono; [|apply touchesOnly_countProcessed]. by intros t Ht%not_elem_of_nil.
Qed.

Lemma touchesOnly_mainPass st st' :
  mainPass configuration st = Ok st' →
  touchesOnly [Unresolved; Exports; Types; NsExports; NsTypes; Duplicates] st st'.
Proof.
  unfold mainPass. destruct (_ || _ || _ || _ || _ || _ || _).
  - apply touchesOnly_forEach. intros sourceFile. apply touchesOnly_visitSourceFile.
  - intros [= <-]. apply touchesOnly_refl.
Qed.

(** The [files] issue set is settled before the passes start. *)
Lemma run_files st :
  run configuration = Ok st → files (issues st) = files (initialIssues configuration).
Proof.
  unfold run. destruct (mainPass _ _) as [st1|] eqn:Hmain; [|done]. simpl. intros [= <-].
  destruct (touchesOnly_finish configuration (projectPass configuration st1)) as [-> _].
  destruct (touchesOnly_projectPass configuration st1) as [-> _].
  destruct (touchesOnly_mainPass _ _ Hmain) as [-> _].
  by destruct (touchesOnly_entryPass (initialState configuration)) as [-> _].
Qed.

Lemma unresolved_addUnresolved sourceFile st :
  unresolved (issues (addUnresolved configuration sourceFile st))
  = foldl record (unresolved (issues st)) (getUnresolvedDependencies sourceFile).
Proof.
  unfold addUnresolved. revert st.
  induction (getUnresolvedDependencies sourceFile) as [|issue found IH]; intros st; [done|].
  simpl. rewrite IH. f_equal.
  by rewrite issues_addSymbolIssue.
Qed.

Lemma unresolved_entryPass st :
  Report.dependencies R || Report.unlisted R = true →
  unresolved (issues (entryPass configuration st))
  = foldl record (unresolved (issues st))
      (usedEntryFiles configuration ≫= getUnresolvedDependencies).
Proof.
  intros Hreport. unfold entryPass. rewrite Hreport. revert st.
  induction (usedEntryFiles configuration) as [|sourceFile rest IH]; intros st; [done|].
  simpl. rewrite IH. unfold visitEntryFile.
  by rewrite unresolved_addUnresolved, foldl_app.
Qed.

Lemma unresolved_visitSourceFile sourceFile st st' :
  Report.dependencies R || Report.unlisted R = true →
  visitSourceFile configuration sourceFile st = Ok st' →
  unresolved (issues st')
  = foldl record (unresolved (issues st)) (getUnresolvedDependencies sourceFile).
Proof.
  intros Hreport (st1 & st2 & -> & -> & [_ Hclassify])%visitSourceFile_steps.
  rewrite Hreport in Hclassify.
  destruct (Hclassify Unresolved) as [Hstore _].
  { unfold exportCategories. rewrite !not_elem_of_cons. split_and!; try done. apply not_elem_of_nil. }
  simpl in Hstore. rewrite Hstore.
  transitivity (unresolved (issues (addUnresolved configuration sourceFile (countProcessed st)))).
  - destruct (Report.duplicates R); [|done].
    destruct (touchesOnly_addDuplicates configuration sourceFile
                (addUnresolved configuration sourceFile (countProcessed st))) as [_ Hdup].
    apply (Hdup Unresolved). by rewrite list_elem_of_singleton.
  - by rewrite unresolved_addUnresolved.
Qed.

Lemma unresolved_mainPass st st' :
  Report.dependencies R || Report.unlisted R = true →
  mainPass configuration st = Ok st' →
  unresolved (issues st')
  = foldl record (unresolved (issues st))
      (usedNonEntryFiles configuration ≫= getUnresolvedDependencies).
Proof.
  intros Hreport. unfold mainPass.
  replace (_ || _ || _ || _ || _ || _ || _) with true
    by (destruct (Report.dependencies R), (Report.unlisted R); done).
  revert st. induction (usedNonEntryFiles configuration) as [|sourceFile rest IH]; intros st; simpl.
  - by intros [= <-].
  - destruct (visitSourceFile _ _ _) as [st1|] eqn:Hvisit; [|done]. simpl.
    intros Hrest. rewrite (IH _ Hrest), foldl_app.
    by rewrite (unresolved_visitSourceFile _ _ _ Hreport Hvisit).
Qed.


End wholeRun.

(** ** The file partitioner *)

Lemma partition_filter superset candidateSubset :
  (partition superset candidateSubset).1
  = filter (λ file, hasFilePath superset file = true) candidateSubset
  ∧ (partition superset candidateSubset).2
    = filter (λ file, hasFilePath superset file ≠ true) candidateSubset.
Proof.
  induction candidateSubset as [|file rest [IH1 IH2]]; [done|].
  simpl. destruct (partition superset rest) as [inSuperset notInSuperset].
  simpl in IH1, IH2. subst.
  destruct (hasFilePath superset file) eqn:Hmember; simpl.
  - rewrite filter_cons_True by done. by rewrite filter_cons_False by (by intros []).
  - rewrite filter_cons_False by (by rewrite Hmember). by rewrite filter_cons_True by (by rewrite Hmember).
Qed.

Lemma partition_elem_of superset candidateSubset file :
  (file ∈ (partition superset candidateSubset).1
   ↔ file ∈ candidateSubset ∧ getFilePath file ∈ getFilePath <$> superset)
  ∧ (file ∈ (partition superset candidateSubset).2
     ↔ file ∈ candidateSubset ∧ getFilePath file ∉ getFilePath <$> superset).
Proof.
  destruct (partition_filter superset candidateSubset) as [-> ->].
  rewrite !list_elem_of_filter. unfold hasFilePath.
  rewrite bool_decide_eq_true. split; [tauto|]. split; intros [? ?]; tauto.
Qed.

Lemma partition_Permutation superset candidateSubset :
  (partition superset candidateSubset).1 ++ (partition superset candidateSubset).2
  ≡ₚ candidateSubset.
Proof.
  induction candidateSubset as [|file rest IH]; [done|].
  simpl. destruct (partition superset rest) as [inSuperset notInSuperset].
  simpl in IH. destruct (hasFilePath superset file); simpl.
  - by rewrite IH.
  - by rewrite <-Permutation_middle, IH.
Qed.

Section partitioner.
Context `{!SourceModel, !DependencyAnalyzer, !Host}.
Local Existing Instance specProjectUtil.

(** C6: the partition is total, disjoint and order preserving. Its first
    output holds the files of the candidate subset whose path is one of the
    superset, its second output those whose path is not; both are
    subsequences of the candidate subset and together a rearrangement of it,
    so that no file is lost and none is in both. With this partition in
    place, a production file has its path in the [files] issue set a run
    returns, or is one of the used production files, and never both. *)
Theorem partition_total_disjoint_ordered (configuration : Configuration) :
  (∀ superset candidateSubset,
     let inSuperset := (partition superset candidateSubset).1 in
     let notInSuperset := (partition superset candidateSubset).2 in
     (∀ file, file ∈ inSuperset
              ↔ file ∈ candidateSubset ∧ getFilePath file ∈ getFilePath <$> superset)
     ∧ (∀ file, file ∈ notInSuperset
                ↔ file ∈ candidateSubset ∧ getFilePath file ∉ getFilePath <$> superset)
     ∧ inSuperset `sublist_of` candidateSubset
     ∧ notInSuperset `sublist_of` candidateSubset
     ∧ inSuperset ++ notInSuperset ≡ₚ candidateSubset
     ∧ (∀ file, file ∈ inSuperset → file ∉ notInSuperset))
  ∧ (∀ st file,
       run configuration = Ok st →
       file ∈ productionFiles configuration →
       (getFilePath file ∈ files (issues st)
        ∧ file ∉ usedProductionFiles configuration)
       ∨ ((getFilePath file ∉ files (issues st))
          ∧ file ∈ usedProductionFiles configuration)).
Proof.
  split.
  - intros superset candidateSubset inSuperset notInSuperset.
    split_and!.
    + intros file. apply partition_elem_of.
    + intros file. apply partition_elem_of.
    + unfold inSuperset. destruct (partition_filter superset candidateSubset) as [-> _].
      apply sublist_filter.
    + unfold notInSuperset. destruct (partition_filter superset candidateSubset) as [_ ->].
      apply sublist_filter.
    + apply partition_Permutation.
    + intros file [_ Hin]%partition_elem_of [_ Hout]%partition_elem_of. done.
  - intros st file Hrun Hproduction.
    rewrite (run_files _ _ Hrun).
    unfold initialIssues, unreferencedProductionFiles, usedProductionFiles. simpl.
    rewrite elem_of_list_to_set, list_elem_of_fmap.
    destruct (decide (getFilePath file ∈ getFilePath <$> projectFiles configuration)) as [Hused|Hunused].
    + right. split.
      * intros (other & Hpath & [_ Hother]%partition_elem_of). by rewrite Hpath in Hused.
      * by apply partition_elem_of.
    + left. split.
      * exists file. split; [done|]. by apply partition_elem_of.
      * by intros [_ ?]%partition_elem_of.
Qed.

End partitioner.

(** ** The progress reporter *)

Lemma silent_foldl {A} (f g : RunState → A → RunState) (xs : list A) st :
  (∀ st x, silent (f st x) = g (silent st) x) →
  silent (foldl f st xs) = foldl g (silent st) xs.
Proof.
  intros Hstep. revert st. induction xs as [|x xs IH]; intros st; [done|].
  simpl. by rewrite IH, Hstep.
Qed.

Lemma silent_forEach {A} (f g : A → RunState → Result RunState) (xs : list A) st :
  (∀ x st, silent <$> f x st = g x (silent st)) →
  silent <$> forEach xs f st = forEach xs g (silent st).
Proof.
  intros Hstep. revert st. induction xs as [|x xs IH]; intros st; [done|].
  simpl. rewrite <-Hstep. destruct (f x st) as [st1|]; [|done]. simpl. apply IH.
Qed.

Section progress.
Context `{!ProjectUtil, !SourceModel, !DependencyAnalyzer, !Host}.
Context (configuration : Configuration).

Local Abbreviation quiet := (withProgress false configuration).

Lemma updateProcessingOutput_quiet item st : updateProcessingOutput quiet item st = st.
Proof. done. Qed.

Lemma silent_updateProcessingOutput item st :
  silent (updateProcessingOutput configuration item st) = silent st.
Proof. unfold updateProcessingOutput. by destruct (negb _). Qed.

Lemma silent_addSymbolIssue t issue st :
  silent (addSymbolIssue configuration t issue st) = addSymbolIssue quiet t issue (silent st).
Proof. unfold addSymbolIssue. by rewrite updateProcessingOutput_quiet, silent_updateProcessingOutput. Qed.

Lemma silent_addProjectIssue p issue st :
  silent (addProjectIssue configuration p issue st) = addProjectIssue quiet p issue (silent st).
Proof.
  unfold addProjectIssue. rewrite updateProcessingOutput_quiet, silent_updateProcessingOutput.
  simpl. by case_bool_decide.
Qed.

Lemma silent_addUnresolved sourceFile st :
  silent (addUnresolved configuration sourceFile st) = addUnresolved quiet sourceFile (silent st).
Proof. apply silent_foldl. intros. apply silent_addSymbolIssue. Qed.

Lemma silent_addDuplicates sourceFile st :
  silent (addDuplicates configuration sourceFile st) = addDuplicates quiet sourceFile (silent st).
Proof. apply silent_foldl. intros. apply silent_addSymbolIssue. Qed.

Lemma silent_classify sourceFile type identifier st :
  silent (classify configuration sourceFile type identifier st)
  = classify quiet sourceFile type identifier (silent st).
Proof. unfold classify. repeat case_match; try done; apply silent_addSymbolIssue. Qed.

Lemma silent_visitDeclaration sourceFile declaration st :
  silent <$> visitDeclaration configuration sourceFile declaration st
  = visitDeclaration quiet sourceFile declaration (silent st).
Proof.
  unfold visitDeclaration.
  change (isNotReported quiet) with (isNotReported configuration).
  change (isPublic quiet) with (isPublic configuration).
  destruct (isNotReported _ _); [done|]. destruct (isPublic _ _); [done|].
  destruct (identifierOf declaration) as [[identifier|]|]; simpl; [|done..].
  change (alreadyReported quiet (silent st)) with (alreadyReported configuration st).
  destruct (alreadyReported _ _ _ _); [done|]. simpl. by rewrite silent_classify.
Qed.

Lemma silent_classifyExports sourceFile st :
  silent <$> classifyExports configuration sourceFile st
  = classifyExports quiet sourceFile (silent st).
Proof.
  unfold classifyExports. case_bool_decide; [done|].
  apply silent_forEach. intros entry st1.
  apply silent_forEach. intros declaration st2. apply silent_visitDeclaration.
Qed.

Lemma silent_visitSourceFile sourceFile st :
  silent <$> visitSourceFile configuration sourceFile st
  = visitSourceFile quiet sourceFile (silent st).
Proof.
  unfold visitSourceFile. simpl.
  set (st1 := if Report.dependencies _ || Report.unlisted _
              then addUnresolved configuration sourceFile (countProcessed st)
              else countProcessed st).
  set (st2 := if Report.duplicates _ then addDuplicates configuration sourceFile st1 else st1).
  assert (silent st1 = (if Report.dependencies (report configuration)
                           || Report.unlisted (report configuration)
                        then addUnresolved quiet sourceFile (countProcessed (silent st))
                        else countProcessed (silent st))) as Hst1.
  { unfold st1. destruct (_ || _); [|done]. by rewrite silent_addUnresolved. }
  assert (silent st2 = (if Report.duplicates (report configuration)
                        then addDuplicates quiet sourceFile (silent st1) else silent st1)) as Hst2.
  { unfold st2. destruct (Report.duplicates _); [|done]. by rewrite silent_addDuplicates. }
  rewrite <-Hst1, <-Hst2.
  destruct (_ || _ || _ || _); [|done]. apply silent_classifyExports.
Qed.

Lemma silent_entryPass st :
  silent (entryPass configuration st) = entryPass quiet (silent st).
Proof.
  unfold entryPass. simpl. destruct (_ || _); [|done].
  apply silent_foldl. intros st1 sourceFile. unfold visitEntryFile.
  by rewrite silent_addUnresolved.
Qed.

Lemma silent_mainPass st :
  silent <$> mainPass configuration st = mainPass quiet (silent st).
Proof.
  unfold mainPass. simpl. destruct (_ || _ || _ || _ || _ || _ || _); [|done].
  apply silent_forEach. intros sourceFile st1. apply silent_visitSourceFile.
Qed.

Lemma silent_projectPass st :
  silent (projectPass configuration st) = projectPass quiet (silent st).
Proof.
  unfold projectPass. simpl. destruct (Report.dependencies _); [|done].
  destruct (isDev _).
  - rewrite (silent_foldl _
      (λ st symbol, addProjectIssue quiet DevDependencies (Issue_of "" symbol) st))
      by (intros; apply silent_addProjectIssue).
    f_equal. apply silent_foldl. intros. apply silent_addProjectIssue.
  - apply silent_foldl. intros. apply silent_addProjectIssue.
Qed.

Lemma silent_finish st : silent (finish configuration st) = finish quiet (silent st).
Proof. unfold finish. simpl. by destruct (isShowProgress _). Qed.

Lemma silent_run : silent <$> run configuration = run quiet.
Proof.
  unfold run.
  change (initialState quiet) with (silent (initialState configuration)).
  rewrite <-silent_entryPass, <-silent_mainPass.
  destruct (mainPass _ _) as [st|]; [|done]. simpl.
  by rewrite silent_finish, silent_projectPass.
Qed.

Lemma findIssues_quiet : findIssues configuration = findIssues quiet.
Proof.
  unfold findIssues. rewrite <-silent_run. by destruct (run configuration).
Qed.

End progress.

(** C9: progress display has no effect on the result. With display switched
    off, a progress update returns the state it was given and the closing
    call does nothing, so that a run without display leaves no output; and
    the issues and counters [findIssues] returns, or the failure it ends
    in, are the same with display on and off. *)
Theorem progress_display_is_observational
    `{!ProjectUtil, !SourceModel, !DependencyAnalyzer, !Host} (configuration : Configuration) :
  (∀ item st, updateProcessingOutput (withProgress false configuration) item st = st)
  ∧ (∀ st, finish (withProgress false configuration) st = st)
  ∧ (∀ st, run (withProgress false configuration) = Ok st → lineRewriter st = [])
  ∧ findIssues (withProgress true configuration) = findIssues (withProgress false configuration).
Proof.
  split_and!; [done..| |].
  - intros st Hrun.
    pose proof (silent_run (withProgress false configuration)) as Hsilent.
    change (withProgress false (withProgress false configuration))
      with (withProgress false configuration) in Hsilent.
    rewrite Hrun in Hsilent. simpl in Hsilent. injection Hsilent as Hsilent.
    by rewrite <-Hsilent.
  - apply (findIssues_quiet (withProgress true configuration)).
Qed.

(** ** The counters of the aggregator *)

Section counting.
Context `{!ProjectUtil, !Host}.
Context (configuration : Configuration).

(** [addSymbolIssue] counts every call, [addProjectIssue] every new symbol. *)
Lemma addSymbolIssue_counter t issue st :
  symbolCounter t (counters (addSymbolIssue configuration t issue st))
  = S (symbolCounter t (counters st)).
Proof. by rewrite counters_addSymbolIssue, symbolCounter_incr, decide_True. Qed.

Lemma addProjectIssue_counter p issue st :
  projectCounter p (counters st) = size (projectStore p (issues st)) →
  projectCounter p (counters (addProjectIssue configuration p issue st))
  = size (projectStore p (issues (addProjectIssue configuration p issue st))).
Proof.
  intros Hlaw. unfold addProjectIssue.
  rewrite issues_updateProcessingOutput, counters_updateProcessingOutput.
  case_bool_decide as Hin; [done|]. simpl.
  rewrite projectCounter_incr, projectStore_set, !decide_True by done.
  rewrite size_union by (by apply disjoint_singleton_l).
  by rewrite size_singleton, Hlaw.
Qed.

End counting.

(** ** The model at work on the small project *)

Section examples.
Local Existing Instances specProjectUtil demoSourceModel demoAnalyzer posixHost.

Local Abbreviation cfg := (demo reportAll).
Local Abbreviation st0 := (initialState (demo reportAll)).

(** C1: [index.ts] imports the unlisted module [foo] twice. The run
    stores one [unresolved] issue for it and counts two: [addSymbolIssue]
    increments the counter on every call, so the counter is not the number
    of entries of the store. *)
Theorem duplicate_unresolved_import_counted_twice :
  getUnresolvedDependencies indexFile
  = [Issue_of "/proj/index.ts" "foo"; Issue_of "/proj/index.ts" "foo"]
  ∧ ∃ result,
      findIssues cfg = Ok result
      ∧ issueAt (unresolved result.1) "index.ts" "foo" = Some (Issue_of "/proj/index.ts" "foo")
      ∧ entries (unresolved result.1) = 1
      ∧ Counters.unresolved result.2 = 2.
Proof. split; [done|]. eexists. split; [vm_compute; reflexivity|]. by vm_compute. Qed.

(** C4, as stated, fails: [m.ts] has the single export name [Foo], bound
    to an interface and a constant, and its visit records [Foo] under
    [types] and under [exports]. *)
Lemma single_name_file_is_classified :
  exportedNames fileM = ["Foo"]
  ∧ ∃ st,
      visitSourceFile cfg fileM st0 = Ok st
      ∧ issueAt (types (issues st)) "m.ts" "Foo"
        = Some {| filePath := "/proj/m.ts"; symbol := "Foo"; symbols := None;
                  symbolType := Some "interface" |}
      ∧ issueAt (exports (issues st)) "m.ts" "Foo" = Some (Issue_of "/proj/m.ts" "Foo")
      ∧ types (issues st0) = ∅
      ∧ exports (issues st0) = ∅.
Proof. split; [done|]. eexists. split; [vm_compute; reflexivity|]. by vm_compute. Qed.

(** C5: [c.ts] exports the constant [x] as [x] and as [y]. After the
    first visit the pair is in the [exports] store under the relative
    path [c.ts], the look up of lines 246 to 249 under the absolute path
    does not find it, and the second visit classifies and counts the
    declaration again. *)
Theorem recorded_export_is_classified_again :
  ∃ st1 st2,
    visitDeclaration cfg fileC constX st0 = Ok st1
    ∧ relative "/proj" (getFilePath fileC) = "c.ts"
    ∧ issueAt (exports (issues st1)) "c.ts" "x" = Some (Issue_of "/proj/c.ts" "x")
    ∧ Report.exports (report cfg) = true
    ∧ alreadyReported cfg st1 (getFilePath fileC) "x" = false
    ∧ visitDeclaration cfg fileC constX st1 = Ok st2
    ∧ st2 = classify cfg fileC None (identifier 6 "x" ["/proj/c.ts"]) st1
    ∧ Counters.exports (counters st2) = 2
    ∧ entries (exports (issues st2)) = 1.
Proof.
  eexists _, _. split; [vm_compute; reflexivity|].
  split_and!; [done..|vm_compute; reflexivity| |done|done]. by vm_compute.
Qed.


(** Runs of the theorems above on the small project. *)

Lemma arrow_function_is_skipped_witness :
  getKind arrow = ArrowFunction
  ∧ findReferences arrow = []
  ∧ visitDeclaration cfg fileF arrow st0 = Ok st0.
Proof.
  split; [reflexivity|]. split; [reflexivity|].
  apply (arrow_function_is_skipped cfg fileF arrow st0). reflexivity.
Defined.

Lemma single_declaration_file_is_not_classified_witness :
  exportedNames fileD = ["y"; "x"]
  ∧ length (uniqueExportedSymbols fileD) = 1
  ∧ ∃ st,
      visitSourceFile cfg fileD st0 = Ok st
      ∧ ∀ t, t ∈ exportCategories →
          symbolStore t (issues st) = symbolStore t (issues st0)
          ∧ symbolCounter t (counters st) = symbolCounter t (counters st0).
Proof.
  split; [reflexivity|]. split; [reflexivity|].
  apply (single_declaration_file_is_not_classified cfg fileD st0). reflexivity.
Defined.

Lemma partition_total_disjoint_ordered_witness :
  ∃ st,
    run cfg = Ok st
    ∧ fileA ∈ productionFiles cfg
    ∧ (getFilePath fileA ∉ files (issues st))
    ∧ fileA ∈ usedProductionFiles cfg.
Proof.
  eexists. split; [vm_compute; reflexivity|].
  assert (fileA ∈ productionFiles cfg) as Hin by (right; left).
  split; [exact Hin|].
  destruct (partition_total_disjoint_ordered cfg) as [_ Hfiles].
  edestruct Hfiles as [[Hlisted Hunused]|Hused]; [vm_compute; reflexivity|exact Hin| |exact Hused].
  exfalso. apply Hunused. right; left.
Defined.

Lemma progress_display_is_observational_witness :
  (∃ st, run (withProgress true cfg) = Ok st ∧ lineRewriter st ≠ [])
  ∧ (∃ st, run (withProgress false cfg) = Ok st ∧ lineRewriter st = [])
  ∧ findIssues (withProgress true cfg) = findIssues (withProgress false cfg).
Proof.
  destruct (progress_display_is_observational cfg) as (_ & _ & Hquiet & Hsame).
  split; [eexists; split; [vm_compute; reflexivity|discriminate]|].
  split; [|exact Hsame].
  eexists. split; [vm_compute; reflexivity|]. apply Hquiet. vm_compute. reflexivity.
Defined.

End examples.

(** ** The number of entries of a store *)

Lemma entries_insert_fresh (store : SymbolStore) key (perFile : gmap string Issue) :
  store !! key = None → entries (<[key := perFile]> store) = size perFile + entries store.
Proof.
  intros Hfresh. unfold entries.
  rewrite map_fold_insert_L; [done| |done]. intros. lia.
Qed.

Lemma entries_insert (store : SymbolStore) key (perFile : gmap string Issue) :
  entries (<[key := perFile]> store) + size (default ∅ (store !! key))
  = size perFile + entries store.
Proof.
  destruct (store !! key) as [old|] eqn:Hold; simpl.
  - rewrite <-(insert_delete_id store key old) at 2 by done.
    rewrite <-insert_delete_eq.
    rewrite !entries_insert_fresh by apply lookup_delete_eq. lia.
  - rewrite entries_insert_fresh by done. rewrite map_size_empty. lia.
Qed.

Lemma entries_recordIssue `{!Host} workingDir (store : SymbolStore) issue :
  entries (recordIssue workingDir store issue)
  = if decide (is_Some (issueAt store (relative workingDir (filePath issue)) (symbol issue)))
    then entries store else S (entries store).
Proof.
  unfold recordIssue, issueAt.
  pose proof (entries_insert store (relative workingDir (filePath issue))
    (<[symbol issue := issue]> (default ∅ (store !! relative workingDir (filePath issue)))))
    as Hentries.
  rewrite map_size_insert in Hentries.
  destruct (store !! relative workingDir (filePath issue)) as [perFile|].
  - change (default ∅ (Some perFile)) with perFile in *.
    change (Some perFile ≫= (.!! symbol issue)) with (perFile !! symbol issue).
    destruct (perFile !! symbol issue) eqn:Hsymbol; simpl in Hentries; case_decide as Hsome.
    + lia.
    + destruct Hsome. eauto.
    + by destruct Hsome.
    + lia.
  - change (default ∅ None) with (∅ : gmap string Issue) in *.
    rewrite lookup_empty, map_size_empty in Hentries. simpl in Hentries.
    case_decide as Hsome; [by destruct Hsome|lia].
Qed.

Lemma entries_foldl_recordIssue `{!Host} workingDir (found : list Issue) (store : SymbolStore) :
  NoDup (storedUnder workingDir <$> found) →
  (∀ issue, issue ∈ found →
     issueAt store (relative workingDir (filePath issue)) (symbol issue) = None) →
  entries (foldl (recordIssue workingDir) store found) = entries store + length found.
Proof.
  revert store. induction found as [|issue found IH]; intros store Hnodup Hfresh; simpl; [lia|].
  rewrite fmap_cons in Hnodup. apply NoDup_cons in Hnodup as [Hnew Hnodup].
  rewrite IH; [|done|].
  - rewrite entries_recordIssue, decide_False; [lia|].
    rewrite (Hfresh issue) by left. by intros [? ?].
  - intros other Hother. rewrite issueAt_recordIssue, decide_False.
    + apply Hfresh. by right.
    + intros [Hkey Hsymbol]. apply Hnew. apply list_elem_of_fmap. exists other.
      split; [|done]. unfold storedUnder. by rewrite Hkey, Hsymbol.
Qed.

(** ** Invariants of a run *)

Lemma elem_of_concat {A} (x : A) (ls : list (list A)) :
  x ∈ concat ls ↔ ∃ l, l ∈ ls ∧ x ∈ l.
Proof.
  rewrite list_elem_of_In, in_concat. split; intros (l & Hl & Hx); exists l.
  - by rewrite !list_elem_of_In.
  - by rewrite <-!list_elem_of_In.
Qed.

Lemma foldl_invariant {A} (P : RunState → Prop) (f : RunState → A → RunState) (xs : list A) st :
  (∀ st x, x ∈ xs → P st → P (f st x)) → P st → P (foldl f st xs).
Proof.
  revert st. induction xs as [|x xs IH]; intros st Hstep Hst; [done|].
  simpl. apply IH.
  - intros st1 y Hy. apply Hstep. by right.
  - apply Hstep; [left|done].
Qed.

Lemma forEach_invariant {A} (P : RunState → Prop) (f : A → RunState → Result RunState)
    (xs : list A) st st' :
  (∀ x st st', x ∈ xs → P st → f x st = Ok st' → P st') →
  P st → forEach xs f st = Ok st' → P st'.
Proof.
  revert st. induction xs as [|x xs IH]; intros st Hstep Hst; simpl.
  - by intros [= <-].
  - destruct (f x st) as [st1|] eqn:Hx; [|done]. simpl. apply IH.
    + intros y st2 st3 Hy. apply Hstep. by right.
    + eapply Hstep; [left|done..].
Qed.

Section invariant.
Context `{!ProjectUtil, !SourceModel, !DependencyAnalyzer, !Host}.
Context (configuration : Configuration).

(** A property of the run state, and the files of the two traversals. *)
Context (P : RunState → Prop) (E N : SourceFile → Prop).

Hypothesis P_countProcessed : ∀ st, P st → P (countProcessed st).
Hypothesis P_unresolved : ∀ sourceFile issue st,
  E sourceFile ∨ N sourceFile →
  issue ∈ getUnresolvedDependencies sourceFile →
  P st → P (addSymbolIssue configuration Unresolved issue st).
Hypothesis P_duplicates : ∀ sourceFile group st,
  N sourceFile →
  group ∈ findDuplicateExportedNames sourceFile →
  P st → P (addSymbolIssue configuration Duplicates (duplicateIssue sourceFile group) st).
Hypothesis P_classify : ∀ sourceFile declaration identifier st,
  N sourceFile →
  declaration ∈ exportedDeclarations sourceFile →
  isNotReported configuration (getType declaration) = false →
  isPublic configuration declaration = false →
  identifierOf declaration = Ok (Some identifier) →
  P st → P (classify configuration sourceFile (getType declaration) identifier st).
Hypothesis P_project : ∀ p symbol st,
  p ≠ Files → P st → P (addProjectIssue configuration p (Issue_of "" symbol) st).
Hypothesis P_finish : ∀ st, P st → P (finish configuration st).

Lemma invariant_addUnresolved sourceFile st :
  E sourceFile ∨ N sourceFile → P st → P (addUnresolved configuration sourceFile st).
Proof using P_unresolved.
  intros Hfile. apply foldl_invariant. intros st1 issue Hissue. by apply P_unresolved with sourceFile.
Qed.

Lemma invariant_visitDeclaration sourceFile declaration st st' :
  N sourceFile → declaration ∈ exportedDeclarations sourceFile →
  P st → visitDeclaration configuration sourceFile declaration st = Ok st' → P st'.
Proof using P_classify.
  intros Hfile Hdeclaration Hst. unfold visitDeclaration.
  destruct (isNotReported _ _) eqn:Hreported; [by intros [= <-]|].
  destruct (isPublic _ _) eqn:Hpublic; [by intros [= <-]|].
  destruct (identifierOf declaration) as [[identifier|]|] eqn:Hid; simpl; [| |done].
  - destruct (alreadyReported _ _ _ _); intros [= <-]; [done|]. by apply P_classify.
  - by intros [= <-].
Qed.

Lemma invariant_visitSourceFile sourceFile st st' :
  N sourceFile → P st → visitSourceFile configuration sourceFile st = Ok st' → P st'.
Proof using P_countProcessed P_unresolved P_duplicates P_classify.
  intros Hfile Hst. unfold visitSourceFile.
  set (st1 := if _ || _ then addUnresolved configuration sourceFile (countProcessed st)
              else countProcessed st).
  set (st2 := if Report.duplicates _ then addDuplicates configuration sourceFile st1 else st1).
  assert (P st1) as Hst1.
  { unfold st1. destruct (_ || _); [|by apply P_countProcessed].
    apply invariant_addUnresolved; [by right|by apply P_countProcessed]. }
  assert (P st2) as Hst2.
  { unfold st2. destruct (Report.duplicates _); [|done].
    unfold addDuplicates. apply foldl_invariant; [|done].
    intros st3 group Hgroup. by apply P_duplicates. }
  destruct (_ || _ || _ || _); [|by intros [= <-]].
  unfold classifyExports. case_bool_decide; [by intros [= <-]|].
  apply forEach_invariant; [|done]. intros entry st3 st4 Hentry Hst3.
  apply forEach_invariant; [|done]. intros declaration st5 st6 Hdeclaration.
  apply invariant_visitDeclaration; [done|].
  unfold exportedDeclarations. apply elem_of_concat. exists entry.2.
  split; [|done]. by apply list_elem_of_fmap_2.
Qed.

Lemma invariant_run st :
  (∀ sourceFile, sourceFile ∈ usedEntryFiles configuration → E sourceFile) →
  (∀ sourceFile, sourceFile ∈ usedNonEntryFiles configuration → N sourceFile) →
  P (initialState configuration) → run configuration = Ok st → P st.
Proof using All.
  intros Hentry Hother Hinitial. unfold run.
  destruct (mainPass _ _) as [st1|] eqn:Hmain; [|done]. simpl. intros [= <-].
  apply P_finish.
  assert (P (entryPass configuration (initialState configuration))) as Hafter.
  { unfold entryPass. destruct (_ || _); [|done].
    apply foldl_invariant; [|done]. intros st2 sourceFile Hfile Hst2. unfold visitEntryFile.
    apply invariant_addUnresolved; [left; by apply Hentry|by apply P_countProcessed]. }
  assert (P st1) as Hst1.
  { unfold mainPass in Hmain. destruct (_ || _ || _ || _ || _ || _ || _); [|by injection Hmain as <-].
    revert Hmain. apply forEach_invariant; [|done].
    intros sourceFile st2 st3 Hfile. apply invariant_visitSourceFile. by apply Hother. }
  unfold projectPass. destruct (Report.dependencies _); [|done].
  assert (∀ p symbols st2, p ≠ Files → P st2 →
    P (foldl (λ st symbol, addProjectIssue configuration p (Issue_of "" symbol) st) st2 symbols))
    as Hproject.
  { intros p symbols st2 Hp. apply foldl_invariant. intros. by apply P_project. }
  destruct (isDev _); [apply Hproject; [done|]|]; by apply Hproject.
Qed.

End invariant.

(** ** Counters at the end of a run *)

Lemma projectCounter_incrSymbolCounter p t c :
  projectCounter p (incrSymbolCounter t c) = projectCounter p c.
Proof. by destruct c, p, t. Qed.

Lemma projectCounter_incrProcessed p c :
  projectCounter p (incrProcessed c) = projectCounter p c.
Proof. by destruct c, p. Qed.

Section runCounters.
Context `{!ProjectUtil, !SourceModel, !DependencyAnalyzer, !Host}.
Context (configuration : Configuration).

Local Abbreviation R := (report configuration).
Local Abbreviation record := (recordIssue (workingDir configuration)).
Local Abbreviation visited :=
  (usedEntryFiles configuration ++ usedNonEntryFiles configuration)%list.

(** [classify] leaves the state alone or adds one export issue. *)
Lemma classify_cases sourceFile type identifier st :
  classify configuration sourceFile type identifier st = st
  ∨ ∃ t issue,
      t ∈ exportCategories
      ∧ classify configuration sourceFile type identifier st
        = addSymbolIssue configuration t issue st.
Proof.
  unfold classify, exportCategories.
  repeat case_match; try (by left); right; eexists _, _; (split; [|done]);
    rewrite !elem_of_cons; tauto.
Qed.

Lemma symbolStore_addSymbolIssue t issue st :
  symbolStore t (issues (addSymbolIssue configuration t issue st))
  = record (symbolStore t (issues st)) issue.
Proof. by rewrite issues_addSymbolIssue, symbolStore_set, decide_True. Qed.

Lemma projectLaw_addSymbolIssue t issue st :
  (∀ p, projectCounter p (counters st) = size (projectStore p (issues st))) →
  ∀ p, projectCounter p (counters (addSymbolIssue configuration t issue st))
       = size (projectStore p (issues (addSymbolIssue configuration t issue st))).
Proof.
  intros Hlaw p. rewrite issues_addSymbolIssue, counters_addSymbolIssue.
  by rewrite projectCounter_incrSymbolCounter, projectStore_setSymbolStore.
Qed.

(** X1: at the end of a run the three project counters are the sizes of
    their sets: [counters.files] of [issues.files], [counters.dependencies]
    of [issues.dependencies] and [counters.devDependencies] of
    [issues.devDependencies], however often a dependency was submitted. *)
Theorem run_project_counter_law st :
  run configuration = Ok st →
  ∀ p, projectCounter p (counters st) = size (projectStore p (issues st)).
Proof.
  apply (invariant_run configuration
           (λ st, ∀ p, projectCounter p (counters st) = size (projectStore p (issues st)))
           (λ _, True) (λ _, True)); try done.
  - intros st1 Hlaw p. simpl. by rewrite projectCounter_incrProcessed.
  - intros _ issue st1 _ _. apply projectLaw_addSymbolIssue.
  - intros sourceFile group st1 _ _. apply projectLaw_addSymbolIssue.
  - intros sourceFile declaration identifier st1 _ _ _ _ _ Hlaw.
    destruct (classify_cases sourceFile (getType declaration) identifier st1)
      as [->|(t & issue & _ & ->)]; [done|]. by apply projectLaw_addSymbolIssue.
  - intros p symbol st1 _ Hlaw p'.
    destruct (decide (p = p')) as [<-|Hp]; [by apply addProjectIssue_counter|].
    unfold addProjectIssue.
    rewrite issues_updateProcessingOutput, counters_updateProcessingOutput.
    case_bool_decide; [done|]. simpl.
    by rewrite projectCounter_incr, projectStore_set, !decide_False.
  - intros st1 Hlaw p. unfold finish. by destruct (isShowProgress _).
  - intros p. by destruct p.
Qed.

Lemma entriesBound_addSymbolIssue t issue st :
  (∀ t, (entries (symbolStore t (issues st)) ≤ symbolCounter t (counters st))%nat) →
  ∀ t', (entries (symbolStore t' (issues (addSymbolIssue configuration t issue st)))
         ≤ symbolCounter t' (counters (addSymbolIssue configuration t issue st)))%nat.
Proof.
  intros Hbound t'. destruct (decide (t = t')) as [<-|Hother].
  - rewrite symbolStore_addSymbolIssue, addSymbolIssue_counter, entries_recordIssue.
    specialize (Hbound t). case_decide; lia.
  - destruct (touchesOnly_addSymbolIssue configuration t issue st) as [_ Hkept].
    destruct (Hkept t') as [-> ->]; [|done]. by rewrite list_elem_of_singleton.
Qed.

(** X2: at the end of a run no symbol issue counter is below the number
    of (file, symbol) entries of its store: a counter may count an issue
    twice, it never misses one. *)
Theorem run_symbol_counters_bound st :
  run configuration = Ok st →
  ∀ t, (entries (symbolStore t (issues st)) ≤ symbolCounter t (counters st))%nat.
Proof.
  apply (invariant_run configuration
           (λ st, ∀ t, (entries (symbolStore t (issues st)) ≤ symbolCounter t (counters st))%nat)
           (λ _, True) (λ _, True)); try done.
  - intros st1 Hbound t. simpl. by rewrite symbolCounter_incrProcessed.
  - intros _ issue st1 _ _. apply entriesBound_addSymbolIssue.
  - intros sourceFile group st1 _ _. apply entriesBound_addSymbolIssue.
  - intros sourceFile declaration identifier st1 _ _ _ _ _ Hbound.
    destruct (classify_cases sourceFile (getType declaration) identifier st1)
      as [->|(t & issue & _ & ->)]; [done|]. by apply entriesBound_addSymbolIssue.
  - intros p symbol st1 Hp Hbound t.
    destruct (touchesOnly_addProjectIssue configuration p (Issue_of "" symbol) st1 Hp)
      as [_ Hkept].
    destruct (Hkept t) as [-> ->]; [apply not_elem_of_nil|done].
  - intros st1 Hbound t. unfold finish. by destruct (isShowProgress _).
  - intros t. by destruct t.
Qed.

End runCounters.

(** ** What the passes write, by what is reported *)

Lemma processed_incrSymbolCounter t c :
  Counters.processed (incrSymbolCounter t c) = Counters.processed c.
Proof. by destruct c, t. Qed.

Lemma processed_incrProjectCounter p c :
  Counters.processed (incrProjectCounter p c) = Counters.processed c.
Proof. by destruct c, p. Qed.

Section passes.
Context `{!ProjectUtil, !SourceModel, !DependencyAnalyzer, !Host}.
Context (configuration : Configuration).

Local Abbreviation R := (report configuration).
Local Abbreviation record := (recordIssue (workingDir configuration)).
Local Abbreviation visited :=
  (usedEntryFiles configuration ++ usedNonEntryFiles configuration)%list.

Lemma touchesOnly_active_visitSourceFile sourceFile st st' :
  visitSourceFile configuration sourceFile st = Ok st' →
  touchesOnly (activeTypes R) st st'.
Proof.
  unfold visitSourceFile, activeTypes.
  set (st1 := if _ || _ then addUnresolved configuration sourceFile (countProcessed st)
              else countProcessed st).
  set (st2 := if Report.duplicates _ then addDuplicates configuration sourceFile st1 else st1).
  set (active := (_ ++ _ ++ _)%list).
  intros Hvisit.
  assert (touchesOnly active st st1) as Hfirst.
  { unfold st1, active. destruct (Report.dependencies R || Report.unlisted R).
    - eapply touchesOnly_mono with [Unresolved]; [intros t Ht; rewrite !elem_of_app; auto|].
      eapply touchesOnly_trans; [|apply touchesOnly_addUnresolved].
      eapply touchesOnly_mono; [|apply touchesOnly_countProcessed]. by intros t Ht%not_elem_of_nil.
    - eapply touchesOnly_mono; [|apply touchesOnly_countProcessed]. by intros t Ht%not_elem_of_nil. }
  assert (touchesOnly active st1 st2) as Hsecond.
  { unfold st2, active. destruct (Report.duplicates R); [|apply touchesOnly_refl].
    eapply touchesOnly_mono with [Duplicates]; [|apply touchesOnly_addDuplicates].
    intros t Ht. rewrite !elem_of_app. auto. }
  assert (touchesOnly active st2 st') as Hthird.
  { unfold active. destruct (_ || _ || _ || _).
    - eapply touchesOnly_mono with exportCategories;
        [|by apply touchesOnly_classifyExports in Hvisit].
      intros t Ht. rewrite !elem_of_app. auto.
    - injection Hvisit as <-. apply touchesOnly_refl. }
  eauto using touchesOnly_trans.
Qed.

Lemma touchesOnly_active_run st :
  run configuration = Ok st → touchesOnly (activeTypes R) (initialState configuration) st.
Proof.
  unfold run. destruct (mainPass _ _) as [st1|] eqn:Hmain; [|done]. simpl. intros [= <-].
  assert (∀ a b, touchesOnly [] a b → touchesOnly (activeTypes R) a b) as Hnone.
  { intros a b. apply touchesOnly_mono. by intros t Ht%not_elem_of_nil. }
  eapply touchesOnly_trans; [|by apply Hnone, touchesOnly_finish].
  eapply touchesOnly_trans; [|by apply Hnone, touchesOnly_projectPass].
  apply touchesOnly_trans with (entryPass configuration (initialState configuration)).
  - pose proof (touchesOnly_entryPass configuration (initialState configuration)) as Hentry.
    unfold entryPass, activeTypes in *.
    destruct (Report.dependencies R || Report.unlisted R); [|apply touchesOnly_refl].
    eapply touchesOnly_mono with [Unresolved]; [|done].
    intros t Ht. rewrite !elem_of_app. auto.
  - unfold mainPass in Hmain. destruct (_ || _ || _ || _ || _ || _ || _).
    + revert Hmain. apply touchesOnly_forEach.
      intros sourceFile. apply touchesOnly_active_visitSourceFile.
    + injection Hmain as <-. apply touchesOnly_refl.
Qed.

(** X3: an issue type that no enabled pass writes to stays empty. At the
    end of a run [unresolved] is empty unless dependencies or unlisted
    dependencies are reported, [duplicates] is empty unless duplicates are
    reported, and [exports], [types], [nsExports] and [nsTypes] are empty
    unless one of the four is reported; the counters of these types are zero. *)
Theorem disabled_passes_record_nothing st t :
  run configuration = Ok st →
  t ∉ activeTypes R →
  symbolStore t (issues st) = ∅ ∧ symbolCounter t (counters st) = 0.
Proof.
  intros [_ Hkept]%touchesOnly_active_run Ht.
  destruct (Hkept t Ht) as [-> ->]. by destruct t.
Qed.

Lemma counter_addUnresolved sourceFile st :
  Counters.unresolved (counters (addUnresolved configuration sourceFile st))
  = Counters.unresolved (counters st) + length (getUnresolvedDependencies sourceFile).
Proof.
  unfold addUnresolved. revert st.
  induction (getUnresolvedDependencies sourceFile) as [|issue found IH]; intros st; simpl; [lia|].
  rewrite IH. pose proof (addSymbolIssue_counter configuration Unresolved issue st) as Hcount.
  simpl in Hcount. lia.
Qed.

Lemma counter_entryPass st :
  Report.dependencies R || Report.unlisted R = true →
  Counters.unresolved (counters (entryPass configuration st))
  = Counters.unresolved (counters st)
    + length (usedEntryFiles configuration ≫= getUnresolvedDependencies).
Proof.
  intros Hreport. unfold entryPass. rewrite Hreport. revert st.
  induction (usedEntryFiles configuration) as [|sourceFile rest IH]; intros st; [cbn; lia|].
  rewrite bind_cons, length_app. simpl. rewrite IH. unfold visitEntryFile.
  rewrite counter_addUnresolved. simpl.
  pose proof (symbolCounter_incrProcessed Unresolved (counters st)) as Hprocessed.
  simpl in Hprocessed. lia.
Qed.

Lemma counter_visitSourceFile sourceFile st st' :
  Report.dependencies R || Report.unlisted R = true →
  visitSourceFile configuration sourceFile st = Ok st' →
  Counters.unresolved (counters st')
  = Counters.unresolved (counters st) + length (getUnresolvedDependencies sourceFile).
Proof.
  intros Hreport (st1 & st2 & -> & -> & [_ Hclassify])%visitSourceFile_steps.
  rewrite Hreport in Hclassify.
  destruct (Hclassify Unresolved) as [_ Hcounter].
  { unfold exportCategories. rewrite !not_elem_of_cons. split_and!; try done. apply not_elem_of_nil. }
  simpl in Hcounter. rewrite Hcounter.
  transitivity (Counters.unresolved
                  (counters (addUnresolved configuration sourceFile (countProcessed st)))).
  - destruct (Report.duplicates R); [|done].
    destruct (touchesOnly_addDuplicates configuration sourceFile
                (addUnresolved configuration sourceFile (countProcessed st))) as [_ Hdup].
    apply (Hdup Unresolved). by rewrite list_elem_of_singleton.
  - rewrite counter_addUnresolved. simpl.
    pose proof (symbolCounter_incrProcessed Unresolved (counters st)) as Hprocessed.
    simpl in Hprocessed. lia.
Qed.

Lemma counter_mainPass st st' :
  Report.dependencies R || Report.unlisted R = true →
  mainPass configuration st = Ok st' →
  Counters.unresolved (counters st')
  = Counters.unresolved (counters st)
    + length (usedNonEntryFiles configuration ≫= getUnresolvedDependencies).
Proof.
  intros Hreport. unfold mainPass.
  replace (_ || _ || _ || _ || _ || _ || _) with true
    by (destruct (Report.dependencies R), (Report.unlisted R); done).
  revert st. induction (usedNonEntryFiles configuration) as [|sourceFile rest IH]; intros st.
  - intros [= <-]. cbn. lia.
  - rewrite bind_cons, length_app. simpl.
    destruct (visitSourceFile _ _ _) as [st1|] eqn:Hvisit; [|done]. simpl.
    intros Hrest. rewrite (IH _ Hrest).
    rewrite (counter_visitSourceFile _ _ _ Hreport Hvisit). lia.
Qed.

Lemma run_unresolved st :
  Report.dependencies R || Report.unlisted R = true →
  run configuration = Ok st →
  unresolved (issues st) = foldl record ∅ (visited ≫= getUnresolvedDependencies)
  ∧ Counters.unresolved (counters st) = length (visited ≫= getUnresolvedDependencies).
Proof.
  intros Hreport Hrun. unfold run in Hrun.
  destruct (mainPass _ _) as [st1|] eqn:Hmain; [|done]. simpl in Hrun. injection Hrun as <-.
  destruct (touchesOnly_finish configuration (projectPass configuration st1)) as [_ Hfinish].
  destruct (touchesOnly_projectPass configuration st1) as [_ Hproject].
  destruct (Hfinish Unresolved (not_elem_of_nil _)) as [Hf Hfc].
  destruct (Hproject Unresolved (not_elem_of_nil _)) as [Hp Hpc].
  simpl in Hf, Hp, Hfc, Hpc. rewrite Hf, Hp, Hfc, Hpc. split.
  - rewrite (unresolved_mainPass _ _ _ Hreport Hmain), unresolved_entryPass by done.
    by rewrite bind_app, foldl_app.
  - rewrite (counter_mainPass _ _ Hreport Hmain), counter_entryPass by done.
    rewrite bind_app, length_app. simpl. lia.
Qed.

(** X4: [counters.unresolved] is the number of unresolved dependencies the
    analyzer returned for the files of the two traversals, each counted as
    often as it was returned; it is zero when neither dependencies nor
    unlisted dependencies are reported. *)
Theorem unresolved_counter_counts_found st :
  run configuration = Ok st →
  Counters.unresolved (counters st)
  = if Report.dependencies R || Report.unlisted R
    then length (visited ≫= getUnresolvedDependencies) else 0.
Proof.
  intros Hrun. destruct (Report.dependencies R || Report.unlisted R) eqn:Hreport.
  - by apply run_unresolved.
  - destruct (touchesOnly_active_run _ Hrun) as [_ Hkept].
    destruct (Hkept Unresolved) as [_ Hcounter]; [|done].
    unfold activeTypes, exportCategories. rewrite Hreport.
    destruct (Report.duplicates R), (_ || _ || _ || _); simpl;
      rewrite ?not_elem_of_cons; split_and?; try done; apply not_elem_of_nil.
Qed.

(** X5: with dependencies or unlisted dependencies reported,
    [counters.unresolved] is the number of entries of the [unresolved]
    store when no two unresolved dependencies of the traversed files go
    under the same file key and symbol, and each of them goes into the store
    as an entry of its own (no file key is a name inherited from
    [Object.prototype], no symbol is [__proto__]). *)
Theorem unresolved_counter_law st :
  Report.dependencies R || Report.unlisted R = true →
  NoDup (storedUnder (workingDir configuration) <$> visited ≫= getUnresolvedDependencies) →
  Forall (storedAsEntry (workingDir configuration)) (visited ≫= getUnresolvedDependencies) →
  run configuration = Ok st →
  entries (unresolved (issues st)) = Counters.unresolved (counters st).
Proof.
  intros Hreport Hnodup _ [-> ->]%run_unresolved; [|done].
  rewrite entries_foldl_recordIssue; [done..|]. intros issue _. unfold issueAt.
  by rewrite lookup_empty.
Qed.

End passes.

(** ** The processed counter and the dependency sets *)

Section processed.
Context `{!ProjectUtil, !SourceModel, !DependencyAnalyzer, !Host}.
Context (configuration : Configuration).

Local Abbreviation R := (report configuration).
Local Abbreviation processedOf st := (Counters.processed (counters st)).

Lemma processed_addSymbolIssue t issue st :
  processedOf (addSymbolIssue configuration t issue st) = processedOf st.
Proof. by rewrite counters_addSymbolIssue, processed_incrSymbolCounter. Qed.

Lemma processed_addProjectIssue p issue st :
  processedOf (addProjectIssue configuration p issue st) = processedOf st.
Proof.
  unfold addProjectIssue. rewrite counters_updateProcessingOutput.
  case_bool_decide; [done|]. simpl. by rewrite processed_incrProjectCounter.
Qed.

Lemma processed_addUnresolved sourceFile st :
  processedOf (addUnresolved configuration sourceFile st) = processedOf st.
Proof.
  unfold addUnresolved.
  apply (foldl_invariant (λ st', processedOf st' = processedOf st)); [|done].
  intros st1 issue _ <-. apply processed_addSymbolIssue.
Qed.

Lemma processed_visitSourceFile sourceFile st st' :
  visitSourceFile configuration sourceFile st = Ok st' →
  processedOf st' = S (processedOf st).
Proof.
  unfold visitSourceFile.
  set (st1 := if _ || _ then addUnresolved configuration sourceFile (countProcessed st)
              else countProcessed st).
  set (st2 := if Report.duplicates _ then addDuplicates configuration sourceFile st1 else st1).
  assert (processedOf (countProcessed st) = S (processedOf st)) as Hcount
    by (simpl; by destruct (counters st)).
  assert (processedOf st1 = S (processedOf st)) as Hst1.
  { unfold st1. destruct (_ || _); [|done]. by rewrite processed_addUnresolved. }
  assert (processedOf st2 = S (processedOf st)) as Hst2.
  { unfold st2. destruct (Report.duplicates _); [|done]. unfold addDuplicates.
    apply (foldl_invariant (λ st', processedOf st' = S (processedOf st))); [|done].
    intros st3 group _ <-. apply processed_addSymbolIssue. }
  destruct (_ || _ || _ || _); [|by intros [= <-]].
  unfold classifyExports. case_bool_decide; [by intros [= <-]|].
  apply (forEach_invariant (λ st', processedOf st' = S (processedOf st))); [|done].
  intros entry st3 st4 _ Hst3.
  apply (forEach_invariant (λ st', processedOf st' = S (processedOf st))); [|done].
  intros declaration st5 st6 _ Hst5. unfold visitDeclaration.
  destruct (isNotReported _ _); [by intros [= <-]|].
  destruct (isPublic _ _); [by intros [= <-]|].
  destruct (identifierOf declaration) as [[identifier|]|]; simpl; [| |done].
  - destruct (alreadyReported _ _ _ _); intros [= <-]; [done|].
    destruct (classify_cases configuration sourceFile (getType declaration) identifier st5)
      as [->|(t & issue & _ & ->)]; [done|]. by rewrite processed_addSymbolIssue.
  - by intros [= <-].
Qed.

(** X6: at the end of a run [counters.processed] is the number of
    unreferenced production files, plus the number of used entry files when
    dependencies or unlisted dependencies are reported, plus the number of
    used non-entry files when anything beside files is reported. *)
Theorem processed_counts_files st :
  run configuration = Ok st →
  Counters.processed (counters st)
  = size (files (initialIssues configuration))
    + (if Report.dependencies R || Report.unlisted R
       then length (usedEntryFiles configuration) else 0)
    + (if Report.dependencies R || Report.unlisted R || Report.exports R || Report.types R
          || Report.nsExports R || Report.nsTypes R || Report.duplicates R
       then length (usedNonEntryFiles configuration) else 0).
Proof.
  unfold run. destruct (mainPass _ _) as [st1|] eqn:Hmain; [|done]. simpl. intros [= <-].
  assert (processedOf (finish configuration (projectPass configuration st1)) = processedOf st1)
    as ->.
  { transitivity (processedOf (projectPass configuration st1)).
    - unfold finish. by destruct (isShowProgress _).
    - unfold projectPass. destruct (Report.dependencies R); [|done].
      assert (∀ p symbols st2,
        processedOf (foldl (λ st symbol, addProjectIssue configuration p (Issue_of "" symbol) st)
                       st2 symbols) = processedOf st2) as Hfold.
      { intros p symbols st2.
        apply (foldl_invariant (λ st', processedOf st' = processedOf st2)); [|done].
        intros st3 symbol _ <-. apply processed_addProjectIssue. }
      destruct (isDev _); by rewrite ?Hfold. }
  assert (∀ st2, processedOf (entryPass configuration st2)
                 = processedOf st2 + (if Report.dependencies R || Report.unlisted R
                                      then length (usedEntryFiles configuration) else 0)) as Hentry.
  { intros st2. unfold entryPass. destruct (_ || _); [|lia]. revert st2.
    induction (usedEntryFiles configuration) as [|sourceFile rest IH]; intros st2; simpl; [lia|].
    rewrite IH. unfold visitEntryFile. rewrite processed_addUnresolved. simpl.
    destruct (counters st2). simpl. lia. }
  assert (∀ st2 st3, mainPass configuration st2 = Ok st3 →
            processedOf st3
            = processedOf st2
              + (if Report.dependencies R || Report.unlisted R || Report.exports R
                    || Report.types R || Report.nsExports R || Report.nsTypes R
                    || Report.duplicates R
                 then length (usedNonEntryFiles configuration) else 0)) as Hother.
  { intros st2 st3. unfold mainPass. destruct (_ || _ || _ || _ || _ || _ || _).
    - revert st2. induction (usedNonEntryFiles configuration) as [|sourceFile rest IH];
        intros st2; simpl; [intros [= <-]; lia|].
      destruct (visitSourceFile _ _ _) as [st4|] eqn:Hvisit; [|done]. simpl.
      intros Hrest. rewrite (IH _ Hrest), (processed_visitSourceFile _ _ _ Hvisit). lia.
    - intros [= <-]. lia. }
  rewrite (Hother _ _ Hmain), Hentry. done.
Qed.

End processed.

Section projectSets.
Context `{!ProjectUtil, !SourceModel, !DependencyAnalyzer, !Host}.
Context (configuration : Configuration).

Local Abbreviation R := (report configuration).

Lemma projectStore_addSymbolIssue p t issue st :
  projectStore p (issues (addSymbolIssue configuration t issue st)) = projectStore p (issues st).
Proof. by rewrite issues_addSymbolIssue, projectStore_setSymbolStore. Qed.

Lemma projectStore_addProjectIssue p p' issue st :
  projectStore p' (issues (addProjectIssue configuration p issue st))
  = if decide (p = p') then {[symbol issue]} ∪ projectStore p' (issues st)
    else projectStore p' (issues st).
Proof.
  unfold addProjectIssue. rewrite issues_updateProcessingOutput.
  destruct (decide (p = p')) as [<-|Hp].
  - case_bool_decide as Hin; simpl.
    + apply leibniz_equiv. intros x. rewrite elem_of_union, elem_of_singleton.
      split; [by right|]. by intros [->|?].
    + by rewrite projectStore_set, decide_True.
  - case_bool_decide as Hin; simpl; [done|]. by rewrite projectStore_set, decide_False.
Qed.

Lemma projectStore_foldl_addProjectIssue p p' symbols st :
  projectStore p' (issues (foldl (λ st symbol,
                                    addProjectIssue configuration p (Issue_of "" symbol) st)
                                 st symbols))
  = if decide (p = p') then list_to_set symbols ∪ projectStore p' (issues st)
    else projectStore p' (issues st).
Proof.
  revert st. induction symbols as [|symbol symbols IH]; intros st; simpl.
  - case_decide; [|done]. by rewrite union_empty_l_L.
  - rewrite IH, projectStore_addProjectIssue. case_decide; [|done]. simpl.
    by rewrite (assoc_L (∪)), (comm_L (∪) (list_to_set symbols) {[symbol]}).
Qed.

(** The traversals leave the dependency sets alone. *)
Lemma projectStore_mainPass p st :
  mainPass configuration (entryPass configuration (initialState configuration)) = Ok st →
  projectStore p (issues st) = projectStore p (initialIssues configuration).
Proof.
  set (kept := λ st : RunState, projectStore p (issues st) = projectStore p (initialIssues configuration)).
  assert (∀ t issue st, kept st → kept (addSymbolIssue configuration t issue st)) as Hadd.
  { intros t issue st1 Hst1. unfold kept. by rewrite projectStore_addSymbolIssue. }
  assert (kept (entryPass configuration (initialState configuration))) as Hentry.
  { unfold entryPass. destruct (_ || _); [|done].
    apply foldl_invariant; [|done]. intros st1 sourceFile _ Hst1.
    unfold visitEntryFile, addUnresolved. apply foldl_invariant; [|done].
    intros st2 issue _. apply Hadd. }
  unfold mainPass. destruct (_ || _ || _ || _ || _ || _ || _); [|by intros [= <-]].
  apply (forEach_invariant kept); [|done]. intros sourceFile st1 st2 _.
  apply (invariant_visitSourceFile configuration kept (λ _, True) (λ _, True)); try done.
  - intros; by apply Hadd.
  - intros; by apply Hadd.
  - intros sourceFile' declaration identifier st3 _ _ _ _ _ Hst3.
    destruct (classify_cases configuration sourceFile' (getType declaration) identifier st3)
      as [->|(t & issue & _ & ->)]; [done|]. by apply Hadd.
Qed.

(** X7: the three project issue sets a run returns. [files] holds the paths
    of the unreferenced production files. [dependencies] holds the unused
    dependencies when dependencies are reported and is empty otherwise;
    [devDependencies] holds the unused development dependencies when
    dependencies are reported in a development run and is empty otherwise. *)
Theorem run_project_sets st :
  run configuration = Ok st →
  files (issues st) = list_to_set (getFilePath <$> unreferencedProductionFiles configuration)
  ∧ dependencies (issues st)
    = (if Report.dependencies R then list_to_set getUnusedDependencies else ∅)
  ∧ devDependencies (issues st)
    = (if Report.dependencies R && isDev configuration
       then list_to_set getUnusedDevDependencies else ∅).
Proof.
  intros Hrun. split; [by rewrite (run_files _ _ Hrun)|].
  unfold run in Hrun. destruct (mainPass _ _) as [st1|] eqn:Hmain; [|done].
  simpl in Hrun. injection Hrun as <-.
  pose proof (projectStore_mainPass Dependencies _ Hmain) as Hdependencies.
  pose proof (projectStore_mainPass DevDependencies _ Hmain) as Hdev.
  simpl in Hdependencies, Hdev.
  assert (∀ st2, dependencies (issues (finish configuration st2)) = dependencies (issues st2)
                 ∧ devDependencies (issues (finish configuration st2))
                   = devDependencies (issues st2)) as Hfinish.
  { intros st2. unfold finish. by destruct (isShowProgress _). }
  destruct (Hfinish (projectPass configuration st1)) as [-> ->].
  unfold projectPass. destruct (Report.dependencies R); simpl; [|done].
  pose proof (projectStore_foldl_addProjectIssue Dependencies) as Hfold.
  pose proof (projectStore_foldl_addProjectIssue DevDependencies) as Hfold'.
  destruct (isDev configuration); split.
  - specialize (Hfold' Dependencies). specialize (Hfold Dependencies). simpl in *.
    rewrite Hfold', Hfold, Hdependencies. apply union_empty_r_L.
  - specialize (Hfold' DevDependencies). specialize (Hfold DevDependencies). simpl in *.
    rewrite Hfold', Hfold, Hdev. apply union_empty_r_L.
  - specialize (Hfold Dependencies). simpl in *.
    rewrite Hfold, Hdependencies. apply union_empty_r_L.
  - specialize (Hfold DevDependencies). simpl in *. by rewrite Hfold.
Qed.


End projectSets.

(** ** Nothing is taken back *)

Lemma grows_refl st : grows st st.
Proof. unfold grows. split_and!; intros; reflexivity || done. Qed.

Lemma grows_trans st1 st2 st3 : grows st1 st2 → grows st2 st3 → grows st1 st3.
Proof.
  intros (Hi & Hp & Hc & Hpc & Hn) (Hi' & Hp' & Hc' & Hpc' & Hn'). unfold grows. split_and!.
  - intros t key name Hsome. by apply Hi', Hi.
  - intros p. etrans; [apply Hp|apply Hp'].
  - intros t. etrans; [apply Hc|apply Hc'].
  - intros p. etrans; [apply Hpc|apply Hpc'].
  - etrans; [apply Hn|apply Hn'].
Qed.

Section growth.
Context `{!ProjectUtil, !SourceModel, !DependencyAnalyzer, !Host}.
Context (configuration : Configuration).

Lemma grows_addSymbolIssue t issue st : grows st (addSymbolIssue configuration t issue st).
Proof.
  unfold grows. split_and!.
  - intros t' key name Hsome. destruct (decide (t = t')) as [<-|Hother].
    + rewrite issueAt_addSymbolIssue. by case_decide.
    + destruct (touchesOnly_addSymbolIssue configuration t issue st) as [_ Hkept].
      destruct (Hkept t') as [-> _]; [|done]. by rewrite list_elem_of_singleton.
  - intros p. by rewrite projectStore_addSymbolIssue.
  - intros t'. rewrite counters_addSymbolIssue, symbolCounter_incr. case_decide; lia.
  - intros p. by rewrite counters_addSymbolIssue, projectCounter_incrSymbolCounter.
  - by rewrite processed_addSymbolIssue.
Qed.

Lemma grows_countProcessed st : grows st (countProcessed st).
Proof.
  unfold grows. split_and!.
  - done.
  - done.
  - intros t. change (counters (countProcessed st)) with (incrProcessed (counters st)).
    by rewrite symbolCounter_incrProcessed.
  - intros p. change (counters (countProcessed st)) with (incrProcessed (counters st)).
    by rewrite projectCounter_incrProcessed.
  - simpl. destruct (counters st). simpl. lia.
Qed.

Lemma grows_addProjectIssue p issue st : grows st (addProjectIssue configuration p issue st).
Proof.
  unfold addProjectIssue, grows. split_and!;
    rewrite ?issues_updateProcessingOutput, ?counters_updateProcessingOutput.
  - intros t key name. case_bool_decide; [done|]. simpl. by rewrite symbolStore_setProjectStore.
  - intros p'. case_bool_decide; [done|]. simpl. rewrite projectStore_set.
    case_decide; [|done]. subst. apply union_subseteq_r.
  - intros t. case_bool_decide; [done|]. simpl. by rewrite symbolCounter_incrProject.
  - intros p'. case_bool_decide; [done|]. simpl. rewrite projectCounter_incr. case_decide; lia.
  - case_bool_decide; [done|]. simpl. by rewrite processed_incrProjectCounter.
Qed.

(** X9: the visit of a file takes nothing back. Every (file, symbol) pair
    that was recorded under an issue type before the visit is recorded
    under it afterwards, the dependency sets have lost no element, and no
    counter has gone down. *)
Theorem visitSourceFile_grows sourceFile st st' :
  visitSourceFile configuration sourceFile st = Ok st' → grows st st'.
Proof.
  apply (invariant_visitSourceFile configuration (grows st) (λ _, True) (λ _, True));
    [| | | |done|apply grows_refl].
  - intros st1 Hst1. eapply grows_trans; [done|apply grows_countProcessed].
  - intros _ issue st1 _ _ Hst1. eapply grows_trans; [done|apply grows_addSymbolIssue].
  - intros sourceFile' group st1 _ _ Hst1. eapply grows_trans; [done|apply grows_addSymbolIssue].
  - intros sourceFile' declaration identifier st1 _ _ _ _ _ Hst1.
    destruct (classify_cases configuration sourceFile' (getType declaration) identifier st1)
      as [->|(t & issue & _ & ->)]; [done|].
    eapply grows_trans; [done|apply grows_addSymbolIssue].
Qed.

End growth.

(** ** What an export issue stands for *)

Lemma isReferencedOnlyBySelf_all refs file :
  isReferencedOnlyBySelf refs file = true →
  ∀ referencing, referencing ∈ concat (references <$> refs) → referencing = file.
Proof.
  unfold isReferencedOnlyBySelf, refFiles.
  intros [Hlength Hhead]%andb_true_iff referencing Hin.
  apply bool_decide_eq_true in Hlength, Hhead.
  apply elem_of_remove_dups in Hin.
  destruct (remove_dups (concat (references <$> refs))) as [|first [|second rest]];
    try done.
  simpl in Hhead. injection Hhead as ->. by apply list_elem_of_singleton in Hin.
Qed.

Section provenance.
Context `{!ProjectUtil, !SourceModel, !DependencyAnalyzer, !Host}.
Context (configuration : Configuration).

Local Abbreviation accounted st :=
  (∀ t key name issue,
     t ∈ exportCategories →
     issueAt (symbolStore t (issues st)) key name = Some issue →
     ∃ sourceFile declaration identifier,
       sourceFile ∈ usedNonEntryFiles configuration
       ∧ reportsDeclaration configuration t key name issue sourceFile declaration identifier).

Lemma accounted_other t issue st :
  t ∉ exportCategories → accounted st → accounted (addSymbolIssue configuration t issue st).
Proof.
  intros Ht Hst t' key name issue' Ht'.
  destruct (touchesOnly_addSymbolIssue configuration t issue st) as [_ Hkept].
  destruct (Hkept t') as [-> _]; [|by apply Hst].
  rewrite list_elem_of_singleton. by intros ->.
Qed.

Lemma accounted_add t issue st :
  (∃ sourceFile declaration identifier,
     sourceFile ∈ usedNonEntryFiles configuration
     ∧ reportsDeclaration configuration t
         (relative (workingDir configuration) (filePath issue)) (symbol issue) issue
         sourceFile declaration identifier) →
  accounted st → accounted (addSymbolIssue configuration t issue st).
Proof.
  intros Hnew Hst t' key name issue' Ht'.
  destruct (decide (t = t')) as [<-|Hother].
  - rewrite issueAt_addSymbolIssue. case_decide as Hhere; [|by apply Hst].
    destruct Hhere as [<- <-]. by intros [= <-].
  - destruct (touchesOnly_addSymbolIssue configuration t issue st) as [_ Hkept].
    destruct (Hkept t') as [-> _]; [|by apply Hst]. by rewrite list_elem_of_singleton.
Qed.

Lemma accounted_classify sourceFile declaration identifier st :
  sourceFile ∈ usedNonEntryFiles configuration →
  declaration ∈ exportedDeclarations sourceFile →
  isPublic configuration declaration = false →
  identifierOf declaration = Ok (Some identifier) →
  accounted st →
  accounted (classify configuration sourceFile (getType declaration) identifier st).
Proof.
  intros Hfile Hdeclaration Hpublic Hid Hst. unfold classify.
  case_bool_decide as Hnone.
  { apply accounted_add; [|done]. exists sourceFile, declaration, identifier.
    split; [done|]. unfold reportsDeclaration. simpl. split_and!; try done.
    - intros referencing. destruct (findReferences identifier); [|done].
      by intros ?%not_elem_of_nil.
    - by intros [?|?].
    - by intros [?|?]. }
  destruct (isReferencedOnlyBySelf _ _) eqn:Hself; simpl; [|done].
  pose proof (isReferencedOnlyBySelf_all _ _ Hself) as Hall.
  assert ((0 < length (findReferencingNamespaceNodes sourceFile))%nat →
          findReferencingNamespaceNodes sourceFile ≠ []) as Hsome.
  { destruct (findReferencingNamespaceNodes sourceFile); simpl; [lia|done]. }
  case_bool_decide as Htarget; destruct (truthy (getType declaration)) eqn:Htype;
    (apply accounted_add; [|done]); exists sourceFile, declaration, identifier;
    (split; [done|]); unfold reportsDeclaration; simpl; split_and!; try done;
    try (by intros [?|?]); try (intros _; by apply Hsome).
Qed.

(** X10: every issue a run returns under [exports], [types], [nsExports]
    or [nsTypes] stands for a declaration that a used non-entry file
    exports: it is stored under the relative path of that file and the text
    of the identifier of the declaration, the declaration carries no
    honoured public tag, and no file but the declaring one refers to the
    identifier. Issues under [types] and [nsTypes] are types and keep their
    type, issues under [nsExports] are not types, and [nsExports] and
    [nsTypes] are used for targets of namespace access only. *)
Theorem export_issues_stand_for_unused_exports st t key name issue :
  run configuration = Ok st →
  t ∈ exportCategories →
  issueAt (symbolStore t (issues st)) key name = Some issue →
  ∃ sourceFile declaration identifier,
    sourceFile ∈ usedNonEntryFiles configuration
    ∧ reportsDeclaration configuration t key name issue sourceFile declaration identifier.
Proof.
  intros Hrun. revert t key name issue. revert Hrun.
  apply (invariant_run configuration (λ st, accounted st)
           (λ _, True) (λ sourceFile, sourceFile ∈ usedNonEntryFiles configuration)).
  - intros st1 Hst1. done.
  - intros _ issue st1 _ _. apply accounted_other.
    unfold exportCategories. rewrite !not_elem_of_cons. split_and!; try done. apply not_elem_of_nil.
  - intros sourceFile group st1 _ _. apply accounted_other.
    unfold exportCategories. rewrite !not_elem_of_cons. split_and!; try done. apply not_elem_of_nil.
  - intros sourceFile declaration identifier st1 Hfile Hdeclaration _ Hpublic Hid.
    by apply accounted_classify.
  - intros p symbol st1 Hp Hst1 t key name issue Ht.
    destruct (touchesOnly_addProjectIssue configuration p (Issue_of "" symbol) st1 Hp)
      as [_ Hkept].
    destruct (Hkept t) as [-> _]; [apply not_elem_of_nil|]. by apply Hst1.
  - intros st1 Hst1. unfold finish. by destruct (isShowProgress _).
  - done.
  - done.
  - intros t key name issue Ht. by destruct t.
Qed.

End provenance.

(** ** Declarations without a name *)

Lemma find_None {A} (f : A → bool) (l : list A) :
  List.find f l = None ↔ ∀ x, x ∈ l → f x = false.
Proof.
  induction l as [|y l IH]; simpl.
  - split; [|done]. by intros _ x ?%not_elem_of_nil.
  - destruct (f y) eqn:Hy.
    + split; [done|]. intros Hall. rewrite Hall in Hy; [done|left].
    + rewrite IH. split.
      * intros Hall x [->|?]%elem_of_cons; auto.
      * intros Hall x Hx. apply Hall. by right.
Qed.

Lemma identifierOf_Throw declaration :
  lacksIdentifier declaration ↔ ∃ reason, identifierOf declaration = Throw reason.
Proof.
  assert (∀ child k, isKind child k = false ↔ getKind child ≠ k) as Hkind.
  { intros child k. unfold isKind. by rewrite bool_decide_eq_false. }
  assert (getFirstChildByKind declaration Identifier = None
          ↔ ∀ child, child ∈ getChildren declaration → getKind child ≠ Identifier) as Hfirst.
  { unfold getFirstChildByKind. rewrite find_None. by setoid_rewrite Hkind. }
  assert (getLastChildByKind declaration Identifier = None
          ↔ ∀ child, child ∈ getChildren declaration → getKind child ≠ Identifier) as Hlast.
  { unfold getLastChildByKind. rewrite find_None. setoid_rewrite Hkind.
    split; intros Hall child Hin; apply Hall; rewrite list_elem_of_In in *.
    - by apply in_rev in Hin.
    - by apply in_rev. }
  unfold lacksIdentifier, identifierOf, getFirstChildByKindOrThrow, getLastChildByKindOrThrow,
    isKind.
  rewrite !elem_of_cons, elem_of_nil.
  destruct (getKind declaration) eqn:Hdeclaration; simpl;
    repeat match goal with
           | |- context [getFirstChildByKind declaration Identifier] =>
               destruct (getFirstChildByKind declaration Identifier) eqn:Hchild; simpl
           | |- context [getLastChildByKind declaration Identifier] =>
               destruct (getLastChildByKind declaration Identifier) eqn:Hchild; simpl
           end;
    split;
    try (by intros [? ?]);
    try (intros _; by eexists);
    try (intros [Hkinds _]; exfalso; intuition congruence);
    try (intros [_ Hnone]; exfalso;
         first [apply Hfirst in Hnone; congruence | apply Hlast in Hnone; congruence]);
    try (intros _; split; [tauto|first [by apply Hfirst | by apply Hlast]]).
Qed.

Lemma forEach_Throw {A} (f : A → RunState → Result RunState) (xs : list A) x :
  x ∈ xs → (∀ st, ∃ reason, f x st = Throw reason) →
  ∀ st, ∃ reason, forEach xs f st = Throw reason.
Proof.
  intros Hx Hthrows. induction xs as [|y xs IH]; intros st; [by apply not_elem_of_nil in Hx|].
  simpl. destruct (f y st) as [st1|reason] eqn:Hy; simpl; [|by eexists].
  apply elem_of_cons in Hx as [->|Hx]; [|by apply IH].
  destruct (Hthrows st) as [reason Hreason]. congruence.
Qed.

Lemma forEach_Ok {A} (f : A → RunState → Result RunState) (xs : list A) :
  (∀ x st, x ∈ xs → ∃ st', f x st = Ok st') →
  ∀ st, ∃ st', forEach xs f st = Ok st'.
Proof.
  induction xs as [|y xs IH]; intros Hok st; simpl; [by eexists|].
  destruct (Hok y st) as [st1 ->]; [left|]. simpl.
  apply IH. intros x st2 Hx. apply Hok. by right.
Qed.

Section failures.
Context `{!ProjectUtil, !SourceModel, !DependencyAnalyzer, !Host}.
Context (configuration : Configuration).

Local Abbreviation R := (report configuration).

Lemma exportedDeclarations_entry sourceFile declaration :
  declaration ∈ exportedDeclarations sourceFile ↔
  ∃ entry, entry ∈ getExportedDeclarations sourceFile ∧ declaration ∈ entry.2.
Proof.
  unfold exportedDeclarations. rewrite elem_of_concat. split.
  - intros (declarations & (entry & -> & Hentry)%list_elem_of_fmap & Hin). by exists entry.
  - intros (entry & Hentry & Hin). exists entry.2. split; [|done]. by apply list_elem_of_fmap_2.
Qed.

(** X11: a declaration without a name makes the run fail. When one of
    [exports], [types], [nsExports] and [nsTypes] is reported and a used
    non-entry file with more than one exported declaration exports a
    function, class, type alias, interface, enum or property access that
    has no [Identifier] child, is of a reported kind and carries no
    honoured public tag, [findIssues] throws and returns no issues at all. *)
Theorem unnamed_declaration_aborts_run sourceFile declaration :
  Report.exports R || Report.types R || Report.nsExports R || Report.nsTypes R = true →
  sourceFile ∈ usedNonEntryFiles configuration →
  length (uniqueExportedSymbols sourceFile) ≠ 1 →
  declaration ∈ exportedDeclarations sourceFile →
  isNotReported configuration (getType declaration) = false →
  isPublic configuration declaration = false →
  lacksIdentifier declaration →
  ∃ reason, findIssues configuration = Throw reason.
Proof.
  intros Hreport Hfile Hmany (entry & Hentry & Hin)%exportedDeclarations_entry
    Hreported Hpublic [reason Hthrow]%identifierOf_Throw.
  assert (∀ st, ∃ reason, mainPass configuration st = Throw reason) as Hmain.
  { unfold mainPass.
    replace (_ || _ || _ || _ || _ || _ || _) with true; last first.
    { symmetry. repeat (apply orb_true_iff in Hreport as [Hreport|Hreport]);
        rewrite Hreport; by rewrite ?orb_true_r. }
    apply forEach_Throw with sourceFile; [done|]. intros st.
    unfold visitSourceFile. rewrite Hreport. unfold classifyExports.
    rewrite bool_decide_eq_false_2 by done.
    apply forEach_Throw with entry; [done|]. intros st1.
    apply forEach_Throw with declaration; [done|]. intros st2.
    unfold visitDeclaration. rewrite Hreported, Hpublic, Hthrow. by eexists. }
  unfold findIssues, run.
  destruct (Hmain (entryPass configuration (initialState configuration))) as [reason' ->].
  by eexists.
Qed.

(** X12: a run succeeds when every declaration has its name. If no
    declaration exported by a used non-entry file is a function, class, type
    alias, interface, enum or property access without an [Identifier]
    child, [findIssues] returns issues and counters. *)
Theorem named_declarations_run :
  (∀ sourceFile declaration,
     sourceFile ∈ usedNonEntryFiles configuration →
     declaration ∈ exportedDeclarations sourceFile →
     ¬ lacksIdentifier declaration) →
  ∃ result, findIssues configuration = Ok result.
Proof.
  intros Hnamed.
  assert (∀ st, ∃ st', mainPass configuration st = Ok st') as Hmain.
  { intros st. unfold mainPass. destruct (_ || _ || _ || _ || _ || _ || _); [|by eexists].
    apply forEach_Ok. intros sourceFile st1 Hfile.
    unfold visitSourceFile. destruct (_ || _ || _ || _); [|by eexists].
    unfold classifyExports. case_bool_decide; [by eexists|].
    apply forEach_Ok. intros entry st2 Hentry.
    apply forEach_Ok. intros declaration st3 Hin.
    unfold visitDeclaration.
    destruct (isNotReported _ _); [by eexists|]. destruct (isPublic _ _); [by eexists|].
    destruct (identifierOf declaration) as [[identifier|]|reason] eqn:Hid; simpl.
    - destruct (alreadyReported _ _ _ _); by eexists.
    - by eexists.
    - destruct (Hnamed sourceFile declaration); [done| |].
      + apply exportedDeclarations_entry. by exists entry.
      + apply identifierOf_Throw. by exists reason. }
  unfold findIssues, run.
  destruct (Hmain (entryPass configuration (initialState configuration))) as [st ->].
  by eexists.
Qed.

End failures.

(** ** The look up for known issues *)

Lemma recorded_issueAt (store : SymbolStore) file name :
  recorded store file name = true ↔ is_Some (issueAt store file name).
Proof.
  unfold recorded, issueAt. destruct (store !! file) as [perFile|]; simpl.
  - by rewrite bool_decide_eq_true.
  - split; [done|]. by intros [? ?].
Qed.

Section revisit.
Context `{!ProjectUtil, !SourceModel, !Host}.
Context (configuration : Configuration).

Local Abbreviation R := (report configuration).

Lemma classify_issue sourceFile type identifier st :
  classify configuration sourceFile type identifier st = st
  ∨ ∃ t issue,
      t ∈ exportCategories
      ∧ filePath issue = getFilePath sourceFile
      ∧ symbol issue = getText identifier
      ∧ classify configuration sourceFile type identifier st
        = addSymbolIssue configuration t issue st.
Proof.
  unfold classify, exportCategories.
  repeat case_match; try (by left); right;
    (eexists _, _; (split_and!; [| | |reflexivity]); [rewrite !elem_of_cons; tauto|done..]).
Qed.

(** X13: the look up of lines 246 to 249 reads the stores under the
    absolute path of the file. Where [path.relative] hands back that path as
    the key, and all four export issue types are reported, a second visit of
    a declaration changes nothing: after a visit, visiting the same
    declaration again returns the state as it is, so that no pair is
    counted twice. *)
Theorem revisit_is_skipped sourceFile declaration st st' :
  relative (workingDir configuration) (getFilePath sourceFile) = getFilePath sourceFile →
  Report.exports R = true → Report.types R = true →
  Report.nsExports R = true → Report.nsTypes R = true →
  visitDeclaration configuration sourceFile declaration st = Ok st' →
  visitDeclaration configuration sourceFile declaration st' = Ok st'.
Proof.
  intros Hkey Hexports Htypes HnsExports HnsTypes. unfold visitDeclaration.
  destruct (isNotReported _ _); [by intros [= <-]|].
  destruct (isPublic _ _); [by intros [= <-]|].
  destruct (identifierOf declaration) as [[identifier|]|]; simpl; [| |done].
  - destruct (alreadyReported _ st _ _) eqn:Hknown.
    { intros [= <-]. by rewrite Hknown. }
    intros [= <-].
    destruct (classify_issue sourceFile (getType declaration) identifier st)
      as [Hsame|(t & issue & Ht & Hfile & Hsymbol & ->)];
      [by rewrite !Hsame, Hknown|].
    replace (alreadyReported configuration (addSymbolIssue configuration t issue st)
               (getFilePath sourceFile) (getText identifier)) with true; [done|].
    symmetry. unfold alreadyReported. rewrite Hexports, Htypes, HnsExports, HnsTypes. simpl.
    assert (recorded (symbolStore t (issues (addSymbolIssue configuration t issue st)))
              (getFilePath sourceFile) (getText identifier) = true) as Hrecorded.
    { apply recorded_issueAt. rewrite issueAt_addSymbolIssue, decide_True; [done|].
      by rewrite Hfile, Hkey, Hsymbol. }
    unfold exportCategories in Ht. rewrite !elem_of_cons, elem_of_nil in Ht.
    destruct Ht as [->|[->|[->|[->|[]]]]]; simpl in Hrecorded; rewrite Hrecorded;
      by rewrite ?orb_true_r.
  - by intros [= <-].
Qed.

End revisit.

(** ** What the classifier records for a declaration *)

Lemma forEach_establishes {A} (P : RunState → Prop) (f : A → RunState → Result RunState)
    (xs : list A) x st st' :
  x ∈ xs →
  (∀ s s', f x s = Ok s' → P s') →
  (∀ y s s', y ∈ xs → P s → f y s = Ok s' → P s') →
  forEach xs f st = Ok st' → P st'.
Proof.
  intros Hx Hestablish Hkeep. revert st Hx Hkeep.
  induction xs as [|y xs IH]; intros st Hx Hkeep; simpl.
  - by apply not_elem_of_nil in Hx.
  - destruct (f y st) as [st1|] eqn:Hy; [|done]. simpl.
    apply elem_of_cons in Hx as [->|Hx].
    + apply forEach_invariant.
      * intros z s s' Hz. apply Hkeep. by right.
      * by eapply Hestablish.
    + apply IH; [done|]. intros z s s' Hz. apply Hkeep. by right.
Qed.

Lemma typedCategory_selfReference namespaceTarget isType :
  typedCategory (selfReferenceCategory namespaceTarget isType) = isType.
Proof. by destruct namespaceTarget, isType. Qed.

Section classification.
Context `{!ProjectUtil, !SourceModel, !DependencyAnalyzer, !Host}.
Context (configuration : Configuration).

Local Abbreviation R := (report configuration).
Local Abbreviation keyOfFile sourceFile :=
  (relative (workingDir configuration) (getFilePath sourceFile)).

(** The short-circuit knows the name, or the store holds an issue for it. *)
Local Abbreviation known sourceFile name st :=
  (alreadyReported configuration st (getFilePath sourceFile) name = true).
Local Abbreviation held t sourceFile name st :=
  (∃ stored,
     issueAt (symbolStore t (issues st)) (keyOfFile sourceFile) name = Some stored
     ∧ exportIssueFor t sourceFile name stored).

Lemma classify_shape sourceFile type identifier st :
  classify configuration sourceFile type identifier st = st
  ∨ ∃ t issue,
      exportIssueFor t sourceFile (getText identifier) issue
      ∧ classify configuration sourceFile type identifier st
        = addSymbolIssue configuration t issue st.
Proof.
  unfold classify, exportIssueFor.
  repeat case_match; try (by left); right; eexists _, _; (split; [|reflexivity]); by simpl.
Qed.

Lemma grows_visitDeclaration sourceFile declaration st st' :
  visitDeclaration configuration sourceFile declaration st = Ok st' → grows st st'.
Proof.
  unfold visitDeclaration.
  destruct (isNotReported _ _); [intros [= <-]; apply grows_refl|].
  destruct (isPublic _ _); [intros [= <-]; apply grows_refl|].
  destruct (identifierOf declaration) as [[identifier|]|]; simpl; [| |done].
  - destruct (alreadyReported _ _ _ _); intros [= <-]; [apply grows_refl|].
    destruct (classify_cases configuration sourceFile (getType declaration) identifier st)
      as [->|(t & issue & _ & ->)]; [apply grows_refl|apply grows_addSymbolIssue].
  - intros [= <-]. apply grows_refl.
Qed.

Lemma alreadyReported_grows st st' file name :
  grows st st' →
  alreadyReported configuration st file name = true →
  alreadyReported configuration st' file name = true.
Proof.
  intros [Hkept _]. unfold alreadyReported.
  rewrite !orb_true_iff, !andb_true_iff, !recorded_issueAt.
  pose proof (Hkept Exports file name) as Hexports.
  pose proof (Hkept Types file name) as Htypes.
  pose proof (Hkept NsExports file name) as HnsExports.
  pose proof (Hkept NsTypes file name) as HnsTypes.
  simpl in *. tauto.
Qed.

Lemma held_addSymbolIssue t sourceFile name t' issue st :
  exportIssueFor t' sourceFile (symbol issue) issue →
  held t sourceFile name st →
  held t sourceFile name (addSymbolIssue configuration t' issue st).
Proof.
  intros Hshape (stored & Hat & Hstored). destruct (decide (t' = t)) as [->|Hother].
  - rewrite issueAt_addSymbolIssue. case_decide as Hhere; [|by exists stored].
    destruct Hhere as [_ <-]. by exists issue.
  - exists stored. split; [|done].
    destruct (touchesOnly_addSymbolIssue configuration t' issue st) as [_ Hkept].
    destruct (Hkept t) as [-> _]; [|done]. rewrite list_elem_of_singleton. congruence.
Qed.

Lemma known_or_held_visitDeclaration t sourceFile name declaration st st' :
  visitDeclaration configuration sourceFile declaration st = Ok st' →
  known sourceFile name st ∨ held t sourceFile name st →
  known sourceFile name st' ∨ held t sourceFile name st'.
Proof.
  intros Hvisit [Hknown|Hheld].
  - left. eapply alreadyReported_grows; [by eapply grows_visitDeclaration|done].
  - right. revert Hvisit. unfold visitDeclaration.
    destruct (isNotReported _ _); [by intros [= <-]|].
    destruct (isPublic _ _); [by intros [= <-]|].
    destruct (identifierOf declaration) as [[identifier|]|]; simpl; [| |done].
    + destruct (alreadyReported _ _ _ _); intros [= <-]; [done|].
      destruct (classify_shape sourceFile (getType declaration) identifier st)
        as [->|(t' & issue & Hshape & ->)]; [done|].
      apply held_addSymbolIssue; [|done].
      destruct Hshape as (Hfile & Hsymbol & Hrest). by rewrite Hsymbol.
    + by intros [= <-].
Qed.

(** A declaration that [classify] turns into an issue of one type, whatever
    the state, has this issue in the store after the visit of its file,
    unless a guard kept it out or the short-circuit knew its name. *)
Lemma visitSourceFile_records sourceFile declaration identifier t issue st st' :
  declaration ∈ exportedDeclarations sourceFile →
  identifierOf declaration = Ok (Some identifier) →
  (∀ s, classify configuration sourceFile (getType declaration) identifier s
        = addSymbolIssue configuration t issue s) →
  exportIssueFor t sourceFile (getText identifier) issue →
  visitSourceFile configuration sourceFile st = Ok st' →
  keptOut configuration sourceFile declaration = true
  ∨ known sourceFile (getText identifier) st'
  ∨ held t sourceFile (getText identifier) st'.
Proof.
  intros (entry & Hentry & Hin)%exportedDeclarations_entry Hid Hclassify Hshape Hvisit.
  destruct (keptOut configuration sourceFile declaration) eqn:Hkept; [by left|right].
  unfold keptOut in Hkept. rewrite !orb_false_iff in Hkept.
  destruct Hkept as (((Hflags & Hmany) & Hreported) & Hpublic).
  apply negb_false_iff in Hflags. apply bool_decide_eq_false in Hmany.
  unfold visitSourceFile in Hvisit. rewrite Hflags in Hvisit.
  unfold classifyExports in Hvisit. rewrite bool_decide_eq_false_2 in Hvisit by done.
  revert Hvisit.
  apply (forEach_establishes
           (λ s, known sourceFile (getText identifier) s
                 ∨ held t sourceFile (getText identifier) s) _ _ entry); [done| |].
  - intros s s'.
    apply (forEach_establishes
             (λ s, known sourceFile (getText identifier) s
                   ∨ held t sourceFile (getText identifier) s) _ _ declaration); [done| |].
    + intros s1 s2. unfold visitDeclaration. rewrite Hreported, Hpublic, Hid. simpl.
      destruct (alreadyReported _ _ _ _) eqn:Hknown; intros [= <-]; [by left|right].
      rewrite Hclassify. exists issue. split; [|done].
      rewrite issueAt_addSymbolIssue, decide_True; [done|].
      destruct Hshape as (-> & -> & _). done.
    + intros other s1 s2 _ Hbefore Hother. by eapply known_or_held_visitDeclaration.
  - intros entry' s s' _ Hbefore.
    apply (forEach_invariant
             (λ s, known sourceFile (getText identifier) s
                   ∨ held t sourceFile (getText identifier) s)); [|done].
    intros other s1 s2 _ Hs1 Hother. by eapply known_or_held_visitDeclaration.
Qed.

(** One visit of such a declaration leaves the state as it is or records
    this one issue, and nothing else. *)
Lemma visitDeclaration_records sourceFile declaration identifier t issue st st' :
  identifierOf declaration = Ok (Some identifier) →
  (∀ s, classify configuration sourceFile (getType declaration) identifier s
        = addSymbolIssue configuration t issue s) →
  filePath issue = getFilePath sourceFile →
  symbol issue = getText identifier →
  visitDeclaration configuration sourceFile declaration st = Ok st' →
  (∀ other, other ≠ t →
     symbolStore other (issues st') = symbolStore other (issues st)
     ∧ symbolCounter other (counters st') = symbolCounter other (counters st))
  ∧ (st' = st
     ∨ (issueAt (symbolStore t (issues st')) (keyOfFile sourceFile) (getText identifier)
        = Some issue
        ∧ symbolCounter t (counters st') = S (symbolCounter t (counters st))
        ∧ ∀ key name,
            ¬ (key = keyOfFile sourceFile ∧ name = getText identifier) →
            issueAt (symbolStore t (issues st')) key name
            = issueAt (symbolStore t (issues st)) key name)).
Proof.
  intros Hid Hclassify Hfile Hsymbol. unfold visitDeclaration.
  destruct (isNotReported _ _); [intros [= <-]; split; [done|by left]|].
  destruct (isPublic _ _); [intros [= <-]; split; [done|by left]|].
  rewrite Hid. simpl.
  destruct (alreadyReported _ _ _ _); intros [= <-]; [split; [done|by left]|].
  rewrite Hclassify. split.
  - intros other Hother.
    apply (touchesOnly_addSymbolIssue configuration t issue st).
    rewrite list_elem_of_singleton. congruence.
  - right. split_and!.
    + rewrite issueAt_addSymbolIssue, decide_True; [done|]. by rewrite Hfile, Hsymbol.
    + apply addSymbolIssue_counter.
    + intros key name Hother. rewrite issueAt_addSymbolIssue, decide_False; [done|].
      rewrite Hfile, Hsymbol. intros [<- <-]. by apply Hother.
Qed.



End classification.

(** ** The calls the progress reporter receives *)

Lemma submitted_incrSymbolCounter t c : submitted (incrSymbolCounter t c) = S (submitted c).
Proof. destruct c, t; unfold submitted; simpl; lia. Qed.

Lemma submitted_incrProjectCounter p c : submitted (incrProjectCounter p c) = submitted c.
Proof. by destruct c, p. Qed.

Lemma submitted_incrProcessed c : submitted (incrProcessed c) = submitted c.
Proof. by destruct c. Qed.

Section output.
Context `{!ProjectUtil, !SourceModel, !DependencyAnalyzer, !Host}.
Context (configuration : Configuration).

Local Abbreviation R := (report configuration).

(** Every call so far was an update, [extra] more than symbol issues were
    submitted. *)
Local Abbreviation ticked extra st :=
  (Forall isUpdate (lineRewriter st)
   ∧ length (lineRewriter st) = submitted (counters st) + extra).

Lemma ticked_addSymbolIssue extra t issue st :
  isShowProgress configuration = true →
  ticked extra st → ticked extra (addSymbolIssue configuration t issue st).
Proof.
  intros Hshow [Hupdates Hlength]. unfold addSymbolIssue, updateProcessingOutput.
  rewrite Hshow. simpl. split.
  - apply Forall_app. split; [done|]. by apply Forall_singleton.
  - rewrite length_app, submitted_incrSymbolCounter. simpl. lia.
Qed.

Lemma ticked_addProjectIssue extra p issue st :
  isShowProgress configuration = true →
  ticked extra st → ticked (S extra) (addProjectIssue configuration p issue st).
Proof.
  intros Hshow [Hupdates Hlength]. unfold addProjectIssue, updateProcessingOutput.
  rewrite Hshow. simpl. split.
  - apply Forall_app. split; [by case_bool_decide|]. by apply Forall_singleton.
  - rewrite length_app. case_bool_decide; simpl; rewrite ?submitted_incrProjectCounter; lia.
Qed.

Lemma ticked_foldl_addProjectIssue extra p symbols st :
  isShowProgress configuration = true →
  ticked extra st →
  ticked (extra + length symbols)
    (foldl (λ st symbol, addProjectIssue configuration p (Issue_of "" symbol) st) st symbols).
Proof.
  intros Hshow. revert extra st.
  induction symbols as [|symbol symbols IH]; intros extra st Hst; simpl.
  - by rewrite Nat.add_0_r.
  - replace (extra + S (length symbols)) with (S extra + length symbols) by lia.
    apply IH. by apply ticked_addProjectIssue.
Qed.

(** X14: with progress display on, the line rewriter is updated once for
    every issue that is submitted: once per symbol issue counted, and once
    per unused dependency handed to [addProjectIssue], also when the set
    holds it already. The lines are released once, by the last call. *)
Theorem progress_ticks_once_per_issue st :
  isShowProgress configuration = true →
  run configuration = Ok st →
  ∃ updates,
    lineRewriter st = (updates ++ [resetLines])%list
    ∧ Forall isUpdate updates
    ∧ length updates
      = submitted (counters st)
        + (if Report.dependencies R
           then length getUnusedDependencies
                + (if isDev configuration then length getUnusedDevDependencies else 0)
           else 0).
Proof.
  intros Hshow. unfold run.
  destruct (mainPass _ _) as [st1|] eqn:Hmain; [|done]. simpl. intros [= <-].
  assert (ticked 0 st1) as Hst1.
  { assert (∀ st2, ticked 0 st2 → ticked 0 (countProcessed st2)) as Hcount.
    { intros st2 [? Hlength]. split; [done|]. simpl. by rewrite submitted_incrProcessed. }
    assert (ticked 0 (entryPass configuration (initialState configuration))) as Hentry.
    { unfold entryPass. destruct (_ || _); [|by split].
      apply foldl_invariant; [|by split]. intros st2 sourceFile _ Hst2.
      unfold visitEntryFile, addUnresolved. apply foldl_invariant; [|by apply Hcount].
      intros st3 issue _. by apply ticked_addSymbolIssue. }
    unfold mainPass in Hmain. destruct (_ || _ || _ || _ || _ || _ || _);
      [|by injection Hmain as <-].
    revert Hmain. apply (forEach_invariant (λ st, ticked 0 st)); [|done].
    intros sourceFile st2 st3 _.
    apply (invariant_visitSourceFile configuration (λ st, ticked 0 st) (λ _, True) (λ _, True));
      [done| | | |done].
    - intros; by apply ticked_addSymbolIssue.
    - intros; by apply ticked_addSymbolIssue.
    - intros sourceFile' declaration identifier st4 _ _ _ _ _ Hst4.
      destruct (classify_cases configuration sourceFile' (getType declaration) identifier st4)
        as [->|(t & issue & _ & ->)]; [done|]. by apply ticked_addSymbolIssue. }
  unfold finish. rewrite Hshow. simpl.
  exists (lineRewriter (projectPass configuration st1)). split; [done|].
  unfold projectPass. destruct (Report.dependencies R); [|done].
  pose proof (ticked_foldl_addProjectIssue 0 Dependencies getUnusedDependencies st1 Hshow Hst1)
    as Hdependencies.
  destruct (isDev configuration); [|by rewrite Nat.add_0_r].
  apply (ticked_foldl_addProjectIssue _ DevDependencies getUnusedDevDependencies _ Hshow
           Hdependencies).
Qed.

End output.

(** ** The exit code of the command line *)

Section exitCode.
Context `{!Cli.Process}.
Context (values : Cli.Values.t).

Local Abbreviation limit := (Cli.Number (default "0" (Cli.Values.max_issues values))).

Lemma exceeds_mono count count' limit' :
  (count ≤ count')%nat → Cli.exceeds count limit' = true → Cli.exceeds count' limit' = true.
Proof.
  intros Hle. destruct limit' as [|negative|numerator denominator]; simpl; [done..|].
  rewrite !bool_decide_eq_true. nia.
Qed.

(** X15: the exit status reads one counter. When unused files are
    reported, [process.exit] is called with the number of unused files if
    that number exceeds the limit, and the process ends with the low eight
    bits of that number as its status; it completes otherwise, whatever any
    other group counts. In general two results with the same report whose
    counters agree on the group of the exit code end the process alike, and
    an exit on issues is kept when that counter grows: with more issues of
    the group the process exits again, with the status of the new count. *)
Theorem exit_code_reads_one_counter :
  (∀ result,
     Cli.flag (Cli.MainResult.report result) "files" = true →
     Cli.exitOnIssues values result
     = if Cli.exceeds (Counters.files (Cli.MainResult.counters result)) limit
       then Cli.exited (Counters.files (Cli.MainResult.counters result) mod 256)
       else Cli.completed)
  ∧ (∀ result result',
       Cli.MainResult.report result = Cli.MainResult.report result' →
       (∀ group, Cli.counterGroup (Cli.MainResult.report result) = Some group →
                 Cli.counterOf (Cli.MainResult.counters result) group
                 = Cli.counterOf (Cli.MainResult.counters result') group) →
       Cli.exitOnIssues values result = Cli.exitOnIssues values result')
  ∧ (∀ result result' group count count',
       Cli.MainResult.report result = Cli.MainResult.report result' →
       Cli.counterGroup (Cli.MainResult.report result) = Some group →
       Cli.counterOf (Cli.MainResult.counters result) group = Some count →
       Cli.counterOf (Cli.MainResult.counters result') group = Some count' →
       (count ≤ count')%nat →
       Cli.exitOnIssues values result ≠ Cli.completed →
       Cli.exitOnIssues values result' = Cli.exited (count' mod 256)).
Proof.
  split_and!.
  - intros result Hfiles. unfold Cli.exitOnIssues, Cli.counterGroup, Cli.reportGroup.
    by rewrite Hfiles.
  - intros result result' Hreport Hcounters. unfold Cli.exitOnIssues.
    rewrite <-Hreport.
    destruct (Cli.counterGroup (Cli.MainResult.report result)) as [group|]; [|done].
    by rewrite (Hcounters group).
  - intros result result' group count count' Hreport Hgroup Hcount Hcount' Hle.
    unfold Cli.exitOnIssues. rewrite <-Hreport, Hgroup, Hcount, Hcount'.
    case_bool_decide; [|done].
    destruct (Cli.exceeds count limit) eqn:Hexceeds; [|done].
    by rewrite (exceeds_mono _ _ _ Hle Hexceeds).
Qed.

(** X16: the limit at its edges. A limit that is not a number switches the
    exit code off: the process completes whatever was counted. When the
    process does exit on issues, the counter of the group of the exit code
    exceeded the limit, and is positive when the limit is a number that is
    not negative; the exit status is that count modulo 256, so that it is
    below 256, and it is 0, the status of a run without issues, exactly for
    the counts that are multiples of 256. *)
Theorem exit_code_and_limit result :
  (limit = Cli.NaN → Cli.exitOnIssues values result = Cli.completed)
  ∧ (∀ status,
       Cli.exitOnIssues values result = Cli.exited status →
       ∃ group count,
         Cli.counterGroup (Cli.MainResult.report result) = Some group
         ∧ Cli.counterOf (Cli.MainResult.counters result) group = Some count
         ∧ Cli.exceeds count limit = true
         ∧ (∀ numerator denominator,
              limit = Cli.Finite numerator denominator → (0 ≤ numerator)%Z → (0 < count)%nat)
         ∧ status = count mod 256
         ∧ (status < 256)%nat
         ∧ (status = 0 ↔ ∃ times, count = 256 * times)).
Proof.
  unfold Cli.exitOnIssues. split.
  - intros ->. by repeat case_match.
  - intros status.
    destruct (Cli.counterGroup (Cli.MainResult.report result)) as [group|] eqn:Hgroup; [|done].
    case_bool_decide; [|done].
    destruct (Cli.counterOf (Cli.MainResult.counters result) group) as [count|] eqn:Hcount;
      [|done].
    destruct (Cli.exceeds count limit) eqn:Hexceeds; [|done].
    unfold Cli.processExit. intros [= <-].
    assert (count mod 256 < 256)%nat as Hbound by (apply Nat.mod_upper_bound; lia).
    assert (count mod 256 = 0 ↔ ∃ times, count = 256 * times) as Hzero.
    { split.
      - intros Hzero. exists (count / 256). by apply Nat.Div0.div_exact in Hzero.
      - intros [times ->]. rewrite Nat.mul_comm. apply Nat.Div0.mod_mul. }
    exists group, count. split_and!; [done..| |done|exact Hbound|exact Hzero].
    intros numerator denominator Hlimit Hpositive.
    rewrite Hlimit in Hexceeds. simpl in Hexceeds. apply bool_decide_eq_true in Hexceeds.
    destruct count; lia.
Qed.

(** X17: what the entry point does with an error. A [ConfigurationError]
    thrown by [main] or by the reporter is answered with its message on the
    error stream, the help text, and exit code 1; every other error is
    thrown on as it is, with nothing added to the output. *)
Theorem errors_of_the_run reporter error :
  (Cli.main (Cli.mainOptions values) = inl error
   ∨ ∃ result,
       Cli.main (Cli.mainOptions values) = inr result
       ∧ Cli.reporterThrows reporter (Cli.reportArgs values result) = Some error) →
  match error with
  | Cli.ConfigurationError message =>
      Cli.ending (Cli.run values reporter) = Cli.exited 1
      ∧ ∃ before,
          Cli.effects (Cli.run values reporter)
          = (before ++ [Cli.consoleError (message +:+ Cli.newline); Cli.printHelp])%list
  | Cli.OtherError _ =>
      Cli.ending (Cli.run values reporter) = Cli.thrown error
      ∧ Forall (λ effect, ∃ args, effect = Cli.printReport reporter args)
          (Cli.effects (Cli.run values reporter))
  end.
Proof.
  unfold Cli.run. intros [Hmain|(result & Hmain & Hthrows)]; rewrite Hmain.
  - destruct error; simpl; (split; [done|]); [by exists []|done].
  - rewrite Hthrows. destruct error; simpl; (split; [done|]).
    + by eexists [_].
    + repeat constructor. by eexists.
Qed.

End exitCode.

(** ** Runs of the small project through the passes *)

Section traversal.
Local Existing Instances splitFirst demoSourceModel demoAnalyzer posixHost.

Local Abbreviation cfg := (demo reportAll).
Local Abbreviation st0 := (initialState (demo reportAll)).

Lemma run_symbol_counters_bound_witness :
  ∃ st,
    run cfg = Ok st
    ∧ entries (exports (issues st)) = 3
    ∧ Counters.exports (counters st) = 4
    ∧ ∀ t, (entries (symbolStore t (issues st)) ≤ symbolCounter t (counters st))%nat.
Proof.
  eexists. split; [vm_compute; reflexivity|]. split; [vm_compute; reflexivity|]. split; [vm_compute; reflexivity|].
  apply (run_symbol_counters_bound cfg). vm_compute; reflexivity.
Defined.

Lemma disabled_passes_record_nothing_witness :
  ∃ st,
    run (demo reportTypes) = Ok st
    ∧ (Unresolved ∉ activeTypes reportTypes)
    ∧ symbolStore Unresolved (issues st) = ∅
    ∧ symbolCounter Unresolved (counters st) = 0.
Proof.
  assert (Unresolved ∉ activeTypes reportTypes) as Hdisabled.
  { unfold activeTypes, exportCategories. simpl. rewrite !not_elem_of_cons.
    split_and!; try discriminate. apply not_elem_of_nil. }
  eexists. split; [vm_compute; reflexivity|]. split; [exact Hdisabled|].
  apply (disabled_passes_record_nothing (demo reportTypes)); [vm_compute; reflexivity|exact Hdisabled].
Defined.

Lemma unresolved_counter_counts_found_witness :
  ∃ st,
    run cfg = Ok st
    ∧ Counters.unresolved (counters st)
      = length ((usedEntryFiles cfg ++ usedNonEntryFiles cfg)%list ≫= getUnresolvedDependencies).
Proof.
  eexists. split; [vm_compute; reflexivity|].
  apply (unresolved_counter_counts_found cfg). vm_compute; reflexivity.
Defined.

Lemma processed_counts_files_witness :
  ∃ st, run cfg = Ok st ∧ Counters.processed (counters st) = 7.
Proof.
  eexists. split; [vm_compute; reflexivity|].
  rewrite (processed_counts_files cfg); vm_compute; reflexivity.
Defined.

Lemma visitSourceFile_grows_witness :
  ∃ st st',
    visitSourceFile cfg fileA st0 = Ok st
    ∧ visitSourceFile cfg fileN st = Ok st'
    ∧ grows st st'.
Proof.
  eexists _, _. split; [vm_compute; reflexivity|]. split; [vm_compute; reflexivity|].
  apply (visitSourceFile_grows cfg fileN). vm_compute; reflexivity.
Defined.

Lemma export_issues_stand_for_unused_exports_witness :
  ∃ st issue,
    run cfg = Ok st
    ∧ NsTypes ∈ exportCategories
    ∧ issueAt (symbolStore NsTypes (issues st)) "n.ts" "I" = Some issue
    ∧ ∃ sourceFile declaration identifier,
        sourceFile ∈ usedNonEntryFiles cfg
        ∧ reportsDeclaration cfg NsTypes "n.ts" "I" issue sourceFile declaration identifier.
Proof.
  assert (NsTypes ∈ exportCategories) as Htype by (do 3 right; left).
  eexists _, _. split; [vm_compute; reflexivity|]. split; [exact Htype|]. split; [vm_compute; reflexivity|].
  eapply (export_issues_stand_for_unused_exports cfg); [vm_compute; reflexivity|exact Htype|vm_compute; reflexivity].
Defined.

Lemma unnamed_declaration_aborts_run_witness :
  fileU ∈ usedNonEntryFiles (withUnnamed reportAll)
  ∧ lacksIdentifier anonymousFunction
  ∧ ∃ reason, findIssues (withUnnamed reportAll) = Throw reason.
Proof.
  assert (fileU ∈ usedNonEntryFiles (withUnnamed reportAll)) as Hfile by (right; left).
  assert (lacksIdentifier anonymousFunction) as Hlacks.
  { split; [left|]. intros child Hchild. simpl in Hchild. by apply not_elem_of_nil in Hchild. }
  split; [exact Hfile|]. split; [exact Hlacks|].
  apply (unnamed_declaration_aborts_run (withUnnamed reportAll) fileU anonymousFunction).
  - reflexivity.
  - exact Hfile.
  - vm_compute. discriminate.
  - left.
  - reflexivity.
  - reflexivity.
  - exact Hlacks.
Defined.

Lemma named_declarations_run_witness :
  ∃ result, findIssues (twoFiles reportAll) = Ok result.
Proof.
  apply (named_declarations_run (twoFiles reportAll)).
  intros sourceFile declaration Hfile Hdeclaration [Hkind Hchildren].
  change (sourceFile ∈ [fileA]) in Hfile. apply list_elem_of_singleton in Hfile. subst.
  change (declaration ∈ [typeT; constUsed]) in Hdeclaration.
  apply elem_of_cons in Hdeclaration as [->|Hdeclaration].
  - apply (Hchildren (unreferencedIdentifier 2 "T")); [left|reflexivity].
  - apply list_elem_of_singleton in Hdeclaration. subst.
    apply (Hchildren (identifier 4 "used" ["/proj/a.ts"; "/proj/b.ts"])); [left|reflexivity].
Defined.

Lemma progress_ticks_once_per_issue_witness :
  ∃ st,
    run (withProgress true cfg) = Ok st
    ∧ submitted (counters st) = 10
    ∧ ∃ updates,
        lineRewriter st = (updates ++ [resetLines])%list
        ∧ Forall isUpdate updates
        ∧ length updates
          = submitted (counters st)
            + (if Report.dependencies (report (withProgress true cfg))
               then length getUnusedDependencies
                    + (if isDev (withProgress true cfg)
                       then length getUnusedDevDependencies else 0)
               else 0).
Proof.
  eexists. split; [vm_compute; reflexivity|]. split; [vm_compute; reflexivity|].
  apply (progress_ticks_once_per_issue (withProgress true cfg)); [reflexivity|vm_compute; reflexivity].
Defined.

End traversal.

Section tidy.
Local Existing Instances splitFirst demoSourceModel tidyAnalyzer posixHost.

Local Abbreviation cfg := (demoConfiguration false reportAll [indexFile] demoProject demoProject).

Lemma run_project_counter_law_witness :
  ∃ st,
    run cfg = Ok st
    ∧ getUnusedDependencies = ["lodash"; "lodash"]
    ∧ Counters.dependencies (counters st) = 1
    ∧ ∀ p, projectCounter p (counters st) = size (projectStore p (issues st)).
Proof.
  eexists. split; [vm_compute; reflexivity|]. split; [reflexivity|]. split; [vm_compute; reflexivity|].
  apply (run_project_counter_law cfg). vm_compute; reflexivity.
Defined.

Lemma unresolved_counter_law_witness :
  ∃ st,
    run cfg = Ok st
    ∧ entries (unresolved (issues st)) = Counters.unresolved (counters st)
    ∧ Counters.unresolved (counters st) = 2.
Proof.
  assert (Forall (storedAsEntry "/proj")
            [Issue_of "/proj/index.ts" "foo"; Issue_of "/proj/index.ts" "bar"]) as Hentries.
  { repeat (apply Forall_cons; split;
              [split; [apply (bool_decide_unpack _); vm_compute; exact I|discriminate]|]).
    constructor. }
  eexists. split; [vm_compute; reflexivity|]. split; [|vm_compute; reflexivity].
  apply (unresolved_counter_law cfg); [reflexivity| |exact Hentries|vm_compute; reflexivity].
  apply (bool_decide_unpack _). vm_compute; reflexivity.
Defined.

Lemma run_project_sets_witness :
  ∃ st,
    run cfg = Ok st
    ∧ dependencies (issues st) = {["lodash"]}
    ∧ files (issues st) = list_to_set (getFilePath <$> unreferencedProductionFiles cfg)
    ∧ dependencies (issues st)
      = (if Report.dependencies (report cfg) then list_to_set getUnusedDependencies else ∅)
    ∧ devDependencies (issues st)
      = (if Report.dependencies (report cfg) && isDev cfg
         then list_to_set getUnusedDevDependencies else ∅).
Proof.
  eexists. split; [vm_compute; reflexivity|]. split; [vm_compute; reflexivity|].
  apply (run_project_sets cfg). vm_compute; reflexivity.
Defined.


End tidy.

Section sameKey.
Local Existing Instances splitFirst demoSourceModel targetHost.

Local Abbreviation cfg := (demo reportAll).

Lemma revisit_is_skipped_witness :
  ∃ st,
    visitDeclaration cfg fileC constX (initialState cfg) = Ok st
    ∧ Counters.exports (counters st) = 1
    ∧ visitDeclaration cfg fileC constX st = Ok st.
Proof.
  eexists. split; [vm_compute; reflexivity|]. split; [vm_compute; reflexivity|].
  apply (revisit_is_skipped cfg fileC constX (initialState cfg)); vm_compute; reflexivity.
Defined.

End sameKey.

Section commandLine.
Local Existing Instance demoProcess.

Lemma exit_code_reads_one_counter_witness :
  Cli.exitOnIssues noValues (filesResult 3) = Cli.exited 3
  ∧ Cli.exitOnIssues noValues (filesResult 256) = Cli.exited 0
  ∧ ∃ result,
      Cli.main (Cli.mainOptions noValues) = inr result
      ∧ Cli.counterGroup (Cli.MainResult.report result) = Some "unresolved"
      ∧ ∀ result',
          Cli.MainResult.report result = Cli.MainResult.report result' →
          Counters.unresolved (Cli.MainResult.counters result)
          = Counters.unresolved (Cli.MainResult.counters result') →
          Cli.exitOnIssues noValues result = Cli.exitOnIssues noValues result'.
Proof.
  destruct (exit_code_reads_one_counter noValues) as (Hfiles & Hsame & Hmore).
  split; [rewrite (Hfiles (filesResult 3)); reflexivity|].
  split.
  { apply (Hmore (filesResult 3) (filesResult 256) "files" 3 256);
      [reflexivity..|lia|vm_compute; discriminate]. }
  eexists. split; [vm_compute; reflexivity|]. split; [vm_compute; reflexivity|].
  intros result' Hreport Hcounter.
  apply Hsame; [exact Hreport|].
  intros group Hgroup. vm_compute in Hgroup. injection Hgroup as <-.
  exact (f_equal Some Hcounter).
Defined.

Lemma exit_code_and_limit_witness :
  Cli.exitOnIssues noValues (filesResult 512) = Cli.exited 0
  ∧ (∃ group count,
       Cli.counterGroup (Cli.MainResult.report (filesResult 512)) = Some group
       ∧ Cli.counterOf (Cli.MainResult.counters (filesResult 512)) group = Some count
       ∧ Cli.exceeds count (Cli.Number "0") = true
       ∧ (0 < count)%nat
       ∧ ∃ times, count = 256 * times)
  ∧ Cli.exitOnIssues (withMaxIssues "many") (filesResult 512) = Cli.completed.
Proof.
  assert (Cli.exitOnIssues noValues (filesResult 512) = Cli.exited 0) as Hexit
    by (vm_compute; reflexivity).
  split; [exact Hexit|]. split.
  - destruct (proj2 (exit_code_and_limit noValues (filesResult 512)) 0 Hexit)
      as (group & count & Hgroup & Hcount & Hexceeds & Hpositive & _ & _ & Hzero).
    exists group, count. split_and!; [exact Hgroup|exact Hcount|exact Hexceeds| |].
    + apply (Hpositive 0%Z 1%positive); [reflexivity|reflexivity].
    + apply Hzero. reflexivity.
  - apply (proj1 (exit_code_and_limit (withMaxIssues "many") (filesResult 512))). reflexivity.
Defined.

Lemma errors_of_the_run_witness :
  Cli.main (Cli.mainOptions (withConfig "missing.json"))
  = inl (Cli.ConfigurationError "Unable to find missing.json")
  ∧ Cli.ending (Cli.run (withConfig "missing.json") (Cli.builtin "symbols")) = Cli.exited 1.
Proof.
  assert (Cli.main (Cli.mainOptions (withConfig "missing.json"))
          = inl (Cli.ConfigurationError "Unable to find missing.json")) as Hmain by reflexivity.
  split; [exact Hmain|].
  apply (errors_of_the_run (withConfig "missing.json") (Cli.builtin "symbols")
           (Cli.ConfigurationError "Unable to find missing.json") (or_introl Hmain)).
Defined.

End commandLine.

(** ** Runs of the classifier, the duplicate pass and the two phases *)

Section classified.
Local Existing Instances splitFirst demoSourceModel demoAnalyzer posixHost.

Local Abbreviation cfg := (demo reportAll).
Local Abbreviation st0 := (initialState (demo reportAll)).



End classified.

Section repeated.
Local Existing Instances splitFirst repeatingSourceModel demoAnalyzer posixHost.

Local Abbreviation cfg := (demo reportAll).
Local Abbreviation st0 := (initialState (demo reportAll)).


End repeated.

Section spread.
Local Existing Instances splitFirst demoSourceModel spreadAnalyzer posixHost.

Local Abbreviation cfg := (twoFiles reportAll).


End spread.
